(** * Relocatable Python environments: a model of [pip_build_standalone.build]

    The development embeds [src/pip_build_standalone/build.py] in Rocq.
    The program is effectful: it reads and mutates a directory tree,
    spawns external tools and logs.  The embedding threads an explicit
    [world] (file system, working directory, platform, clock and a trace of
    observable events) through an exception monad.

    Layout: byte strings and their scan/replace functions, paths and the
    file system, the [glob] and [os.walk] library functions, the helper
    modules that are imported by [build.py], the four functions of
    [build.py], and then the theorems. *)

From Stdlib Require Import Strings.Byte Strings.Ascii Strings.String.
From stdpp Require Import gmap strings list fin_maps pretty.

Set Default Proof Using "Type".

(** ** Byte strings *)

Abbreviation bytes := (list byte).

#[global] Instance byte_eq_decision : EqDecision byte := Byte.byte_eq_dec.

(** [str.encode()]: a Python [str] is represented by its UTF-8 bytes, one
    [ascii] per byte, so that encoding only changes the type. *)
Definition encode (s : string) : bytes := String.list_byte_of_string s.

(** [content.startswith(pat)] on byte strings. *)
Fixpoint starts_with (pat s : bytes) : bool :=
  match pat, s with
  | [], _ => true
  | _ :: _, [] => false
  | a :: pat', b :: s' => if decide (a = b) then starts_with pat' s' else false
  end.

(** [occurs old s]: the byte string [old] is a contiguous part of [s]. *)
Definition occurs (old s : bytes) : Prop := ∃ pre suf, s = pre ++ old ++ suf.

(** [sep.join(segs)] on byte strings. *)
Fixpoint join_bytes (sep : bytes) (segs : list bytes) : bytes :=
  match segs with
  | [] => []
  | [s] => s
  | s :: rest => s ++ sep ++ join_bytes sep rest
  end.

Module Scan.

(** The left-to-right scan shared by [bytes.count] and [bytes.replace]
    for a non-empty [old]: at each position either [old] starts there,
    and the scan resumes behind that occurrence, or the scan advances by
    one byte.  Each step consumes at least one byte, so [S (length s)]
    steps always suffice. *)
Fixpoint count_go (fuel : nat) (old s : bytes) : nat :=
  match fuel with
  | 0 => 0
  | S fuel' =>
      match s with
      | [] => 0
      | _ :: s' =>
          if starts_with old s
          then S (count_go fuel' old (drop (pred (length old)) s'))
          else count_go fuel' old s'
      end
  end.

Fixpoint replace_go (fuel : nat) (old new s : bytes) : bytes :=
  match fuel with
  | 0 => s
  | S fuel' =>
      match s with
      | [] => []
      | b :: s' =>
          if starts_with old s
          then new ++ replace_go fuel' old new (drop (pred (length old)) s')
          else b :: replace_go fuel' old new s'
      end
  end.

End Scan.

(** [content.count(old)]: the number of occurrences found by the scan.  The
    empty byte string occurs before every byte and at the end. *)
Definition count (old s : bytes) : nat :=
  match old with
  | [] => S (length s)
  | _ :: _ => Scan.count_go (S (length s)) old s
  end.

(** [content.replace(old, new)]: every occurrence found by the scan is
    replaced by [new]; all other bytes are copied. *)
Definition replace (old new s : bytes) : bytes :=
  match old with
  | [] => new ++ flat_map (λ b, b :: new) s
  | _ :: _ => Scan.replace_go (S (length s)) old new s
  end.

(** The number of positions of [s] at which [old] starts, occurrences
    that overlap included. *)
Fixpoint occurrences (old s : bytes) : nat :=
  (if starts_with old s then 1 else 0) +
  match s with
  | [] => 0
  | _ :: s' => occurrences old s'
  end.

(** [old] cannot overlap itself: no proper non-empty end of [old] is
    also a start of it. *)
Definition overlap_free (old : bytes) : Prop :=
  ∀ i, 0 < i < length old → ¬ drop i old `prefix_of` old.

(** ** Paths

    Python-level paths and glob patterns are strings.  The file system is
    keyed by the list of components from its root.  Symbolic links and
    [..] components are outside the model. *)

Abbreviation path := (list string).

Definition is_abs (s : string) : bool :=
  match s with
  | String "/"%char _ => true
  | _ => false
  end.

Fixpoint components_go (cur s : string) : list string :=
  match s with
  | EmptyString => [cur]
  | String c s' =>
      if Ascii.eqb c "/"%char then cur :: components_go EmptyString s'
      else components_go (cur +:+ String c EmptyString) s'
  end.

(** The components of a path string; empty components and [.] do not
    name anything. *)
Definition components (s : string) : path :=
  filter (λ c, c ≠ EmptyString ∧ c ≠ ".") (components_go EmptyString s).

Fixpoint join_str (sep : string) (parts : list string) : string :=
  match parts with
  | [] => EmptyString
  | [p] => p
  | p :: rest => p +:+ sep +:+ join_str sep rest
  end.

(** [str(path)] for a path given by its anchor and components. *)
Definition path_str (anchored : bool) (parts : path) : string :=
  if anchored then "/" +:+ join_str "/" parts
  else match parts with [] => "." | _ => join_str "/" parts end.

(** [Path(s)]: pathlib keeps a path normalised; the model stores the
    normalised string. *)
Definition Path (s : string) : string := path_str (is_abs s) (components s).

(** The file-system key a path string denotes in working directory [wd]. *)
Definition key (wd : path) (s : string) : path :=
  if is_abs s then components s else wd ++ components s.

Fixpoint ends_with_sep (s : string) : bool :=
  match s with
  | EmptyString => false
  | String c EmptyString => Ascii.eqb c "/"%char
  | String _ s' => ends_with_sep s'
  end.

(** [os.path.join(a, b)] for two arguments. *)
Definition os_path_join (a b : string) : string :=
  if is_abs b then b
  else if decide (a = EmptyString) then b
  else if ends_with_sep a then a +:+ b
  else a +:+ "/" +:+ b.

(** [a / b] on [Path] values. *)
Definition path_div (a b : string) : string := Path (os_path_join a b).

(** [Path(p).relative_to(root)]: component-wise; [None] stands for the
    [ValueError] pathlib raises when [root] does not lead to [p]. *)
Definition relative_to (p root : string) : option string :=
  let pp := components p in
  let rp := components root in
  if decide (is_abs p = is_abs root ∧ take (length rp) pp = rp)
  then Some (path_str false (drop (length rp) pp))
  else None.

(** ** The file system and the world *)

(** A regular file carries its content and its modification time. *)
Inductive node :=
  | File (data : bytes) (mtime : nat)
  | Dir.

#[global] Instance node_eq_decision : EqDecision node.
Proof. solve_decision. Defined.

Definition is_dir (n : node) : bool :=
  match n with Dir => true | File _ _ => false end.

(** What an observer of a run sees besides the file system. *)
Inductive event :=
  | EvRun (cmd : list string)
  | EvInfo (msg : string)
  | EvWarn (msg : string)
  | EvSuccess (msg : string).

#[global] Instance event_eq_decision : EqDecision event.
Proof. solve_decision. Defined.

Inductive exn :=
  | FileExistsError (msg : string)
  | FileNotFoundError (msg : string)
  | ValueError (msg : string)
  | CalledProcessError (cmd : list string).

Record world := World {
  fs : gmap path node;
  cwd : path;
  platform : string;
  clock : nat;
  trace : list event;
}.

Definition with_fs (m : gmap path node) (w : world) : world :=
  World m (cwd w) (platform w) (clock w) (trace w).

Definition emit (e : event) (w : world) : world :=
  World (fs w) (cwd w) (platform w) (clock w) (trace w ++ [e]).

(** Every directory on the way to an entry exists. *)
Definition wf_fs (m : gmap path node) : Prop :=
  ∀ (k : path) (n : string), is_Some (m !! (k ++ [n])) → m !! k = Some Dir.

(** ** Computations that may raise *)

Inductive outcome (A : Type) :=
  | Ok (a : A)
  | Raise (e : exn).
Arguments Ok {A} a.
Arguments Raise {A} e.

Definition M (A : Type) : Type := world → outcome A * world.

Definition ret {A} (a : A) : M A := λ w, (Ok a, w).

Definition bind {A B} (c : M A) (k : A → M B) : M B :=
  λ w, match c w with
       | (Ok a, w') => k a w'
       | (Raise e, w') => (Raise e, w')
       end.

Definition raise {A} (e : exn) : M A := λ w, (Raise e, w).

(** Read something off the world. *)
Definition gets {A} (f : world → A) : M A := λ w, (Ok (f w), w).

(** Change the world. *)
Definition modify (f : world → world) : M unit := λ w, (Ok tt, f w).

Notation "'let*' x ':=' c 'in' k" := (bind c (λ x, k))
  (at level 10, x name, c at level 100, k at level 200).
Notation "c ';;' k" := (bind c (λ _, k))
  (at level 100, k at level 200, right associativity).

(** [for x in xs: body(x)] *)
Fixpoint for_each {A} (xs : list A) (body : A → M unit) : M unit :=
  match xs with
  | [] => ret tt
  | x :: rest => body x ;; for_each rest body
  end.

(** ** File-system primitives *)

(** [path.exists()] *)
Definition exists_ (p : string) : M bool :=
  gets (λ w, bool_decide (is_Some (fs w !! key (cwd w) p))).

(** [path.resolve()] *)
Definition resolve (p : string) : M string :=
  gets (λ w, path_str true (key (cwd w) p)).

(** The name of [k] when [k] is an entry of directory [d]. *)
Definition child_name (d k : path) : option string :=
  if decide (k = d ++ drop (length d) k ∧ length k = S (length d))
  then last k else None.

(** [os.scandir(d)], split into sub-directories and other entries as
    [os.walk] does; [None] when [d] is not a directory. *)
Definition scandir (m : gmap path node) (d : path)
  : option (list string * list string) :=
  match m !! d with
  | Some Dir =>
      Some (omap (λ e, if is_dir e.2 then child_name d e.1 else None)
                 (map_to_list m),
            omap (λ e, if is_dir e.2 then None else child_name d e.1)
                 (map_to_list m))
  | _ => None
  end.

(** [shutil.rmtree(k)]: the entry and everything below it disappears. *)
Definition rmtree (k : path) : M unit :=
  modify (λ w, with_fs (filter (λ e, ¬ k `prefix_of` e.1) (fs w)) w).

(** [open(k, "wb").write(data)] on an existing file. *)
Definition write_bytes (k : path) (data : bytes) : M unit :=
  modify (λ w, World (<[k := File data (clock w)]> (fs w))
                     (cwd w) (platform w) (S (clock w)) (trace w)).

(** [os.walk(top)] driving a loop body, top-down, with directories
    named by their components.  The listing of a directory is read when
    the walk arrives there, after the body has run for all directories
    visited before; a directory that cannot be listed any more is skipped
    silently.  [depth] bounds the nesting the walk descends. *)
Fixpoint os_walk (depth : nat)
    (body : path → list string → list string → M unit) (top : path) : M unit :=
  match depth with
  | 0 => ret tt
  | S depth' =>
      let* listing := gets (λ w, scandir (fs w) top) in
      match listing with
      | None => ret tt
      | Some (dirnames, filenames) =>
          body top dirnames filenames ;;
          for_each dirnames (λ name, os_walk depth' body (top ++ [name]))
      end
  end.

(** The deepest nesting of any entry. *)
Definition fs_depth (m : gmap path node) : nat :=
  map_fold (λ k _ d, length k `max` d) 0 m.

(** ** [glob.glob]

    A pattern is split at [/]; each component is matched against one
    entry name with [fnmatch], where [*] stands for any run of
    characters, [?] for one character and a bracket expression for one
    character of a set.  With [recursive=True] a component [**] stands
    for any number of nested directories.  Names starting with a dot are
    only matched by a component that starts with a dot.  The matches come
    in the enumeration order of the file system; the directory a pattern
    starts in is not itself reported.  In a well-formed tree ([wf_fs])
    whatever lies above a match is a directory. *)

(** One item of the text between the brackets of a bracket expression,
    as [fnmatch.translate] hands it to the regular-expression engine: a
    character that stands for itself, or a hyphen that joins two chunks
    and so spans a range. *)
Inductive class_item :=
  | CLit (c : ascii)
  | CSep.

(** One step of a translated pattern. *)
Inductive pat_item :=
  | PStar
  | PAny
  | PNone
  | PChar (c : ascii)
  | PSet (negated : bool) (items : list class_item).

(** The order of two characters by their codes. *)
Definition char_le (a b : ascii) : bool :=
  (nat_of_ascii a <=? nat_of_ascii b)%nat.

(** The text up to the first [sep], and the text behind it. *)
Fixpoint split_at (sep : ascii) (s : string) : option (string * string) :=
  match s with
  | EmptyString => None
  | String c s' =>
      if Ascii.eqb c sep then Some (EmptyString, s')
      else match split_at sep s' with
           | Some (pre, post) => Some (String c pre, post)
           | None => None
           end
  end.

(** The text between [[] and the closing []], and the pattern behind it:
    a leading [!] and a []] right after the opening do not close the
    expression. *)
Definition split_class (s : string) : option (string * string) :=
  let '(bang, s1) :=
    match s with
    | String "!"%char s' => ("!", s')
    | _ => (EmptyString, s)
    end in
  let '(first, s2) :=
    match s1 with
    | String "]"%char s' => ("]", s')
    | _ => (EmptyString, s1)
    end in
  match split_at "]" s2 with
  | Some (mid, post) => Some (bang +:+ first +:+ mid, post)
  | None => None
  end.

(** The chunks of a bracket text: it is cut at every hyphen that can span
    a range.  [skip] characters from here on cannot (the first one or two
    of the text, the two behind a cut); [cur] is the chunk read so far. *)
Fixpoint chunks_go (skip : nat) (cur : string) (s : string) : list string :=
  match s with
  | EmptyString => [cur]
  | String c s' =>
      match skip with
      | 0 =>
          if Ascii.eqb c "-" then cur :: chunks_go 2 EmptyString s'
          else chunks_go 0 (cur +:+ String c EmptyString) s'
      | S skip' => chunks_go skip' (cur +:+ String c EmptyString) s'
      end
  end.

Fixpoint last_char (s : string) : option ascii :=
  match s with
  | EmptyString => None
  | String c EmptyString => Some c
  | String _ s' => last_char s'
  end.

Fixpoint drop_last (s : string) : string :=
  match s with
  | EmptyString => EmptyString
  | String _ EmptyString => EmptyString
  | String c s' => String c (drop_last s')
  end.

(** A hyphen at the very end is no range: it joins the chunk before. *)
Fixpoint close_chunks (chunks : list string) : list string :=
  match chunks with
  | [] => []
  | [c] => [c]
  | [c; EmptyString] => [c +:+ "-"]
  | c :: rest => c :: close_chunks rest
  end.

(** Empty ranges are removed, from the last pair of chunks to the
    first: where the end of a chunk lies above the start of the next, the
    two bounds are dropped and the chunks joined. *)
Fixpoint merge_chunks (chunks : list string) : list string :=
  match chunks with
  | [] => []
  | c :: rest =>
      match merge_chunks rest with
      | [] => [c]
      | d :: rest' =>
          match last_char c, d with
          | Some a, String b d' =>
              if char_le a b then c :: d :: rest'
              else (drop_last c +:+ d') :: rest'
          | _, _ => c :: d :: rest'
          end
      end
  end.

Fixpoint chunk_items (s : string) : list class_item :=
  match s with
  | EmptyString => []
  | String c s' => CLit c :: chunk_items s'
  end.

Fixpoint join_chunks (chunks : list string) : list class_item :=
  match chunks with
  | [] => []
  | [c] => chunk_items c
  | c :: rest => chunk_items c ++ CSep :: join_chunks rest
  end.

(** The bracket text [stuff] as a step of the pattern. *)
Definition class_of (stuff : string) : pat_item :=
  let start := match stuff with String "!"%char _ => 2 | _ => 1 end in
  let items :=
    join_chunks (merge_chunks (close_chunks (chunks_go start EmptyString stuff))) in
  match items with
  | [] => PNone
  | [CLit "!"%char] => PAny
  | CLit "!"%char :: items' => PSet true items'
  | _ => PSet false items
  end.

(** [fnmatch.translate]: [*], [?], bracket expressions, and characters
    that stand for themselves; a [[] without a closing []] is such a
    character. *)
Fixpoint translate_go (fuel : nat) (pat : string) : list pat_item :=
  match fuel, pat with
  | 0, _ | _, EmptyString => []
  | S fuel', String c pat' =>
      if Ascii.eqb c "*" then PStar :: translate_go fuel' pat'
      else if Ascii.eqb c "?" then PAny :: translate_go fuel' pat'
      else if Ascii.eqb c "[" then
        match split_class pat' with
        | Some (stuff, post) => class_of stuff :: translate_go fuel' post
        | None => PChar c :: translate_go fuel' pat'
        end
      else PChar c :: translate_go fuel' pat'
  end.

Definition translate (pat : string) : list pat_item :=
  translate_go (String.length pat) pat.

(** Membership in a set of the regular-expression engine: an item
    followed by a joining hyphen and a further item is a range. *)
Fixpoint in_class (items : list class_item) (c : ascii) : bool :=
  match items with
  | [] => false
  | item :: rest =>
      let lo := match item with CLit a => a | CSep => "-"%char end in
      match rest with
      | CSep :: bound :: rest' =>
          let hi := match bound with CLit b => b | CSep => "-"%char end in
          char_le lo c && char_le c hi || in_class rest' c
      | _ => Ascii.eqb lo c || in_class rest c
      end
  end.

Definition item_match (item : pat_item) (c : ascii) : bool :=
  match item with
  | PStar => false
  | PAny => true
  | PNone => false
  | PChar d => Ascii.eqb d c
  | PSet negated items => xorb negated (in_class items c)
  end.

Fixpoint match_items (items : list pat_item) (name : string) : bool :=
  match items with
  | [] => bool_decide (name = EmptyString)
  | PStar :: items' =>
      (fix star (name : string) : bool :=
         match_items items' name ||
         match name with
         | EmptyString => false
         | String _ name' => star name'
         end) name
  | item :: items' =>
      match name with
      | EmptyString => false
      | String d name' => item_match item d && match_items items' name'
      end
  end.

(** [fnmatch.fnmatchcase(name, pat)]. *)
Definition fnmatch (pat name : string) : bool :=
  match_items (translate pat) name.

(** [glob.has_magic]: the pattern holds one of [*], [?] and [[]. *)
Fixpoint has_magic (pat : string) : bool :=
  match pat with
  | EmptyString => false
  | String c pat' =>
      Ascii.eqb c "*"%char || Ascii.eqb c "?"%char || Ascii.eqb c "["%char
      || has_magic pat'
  end.

Definition is_hidden (name : string) : bool :=
  match name with
  | String "."%char _ => true
  | _ => false
  end.

(** One pattern component against one entry name. *)
Definition component_match (pat name : string) : bool :=
  if has_magic pat
  then (is_hidden pat || negb (is_hidden name)) && fnmatch pat name
  else bool_decide (pat = name).

(** The pattern components against the components of an entry below the
    directory the pattern starts in. *)
Fixpoint glob_match (recursive : bool) (pats : list string) (rel : path)
  : bool :=
  match pats with
  | [] => bool_decide (rel = [])
  | pat :: pats' =>
      if recursive && bool_decide (pat = "**")
      then (fix descend (rel : path) : bool :=
              glob_match recursive pats' rel ||
              match rel with
              | [] => false
              | name :: rel' => negb (is_hidden name) && descend rel'
              end) rel
      else match rel with
           | [] => false
           | name :: rel' =>
               component_match pat name && glob_match recursive pats' rel'
           end
  end.

(** The entries of [m], each relative to [base], that lie at or below
    [base]. *)
Definition entries_below (base : path) (m : gmap path node) : list path :=
  omap (λ e, if decide (base `prefix_of` e.1)
             then Some (drop (length base) e.1) else None)
       (map_to_list m).

(** The directory a pattern starts in. *)
Definition glob_base (pattern : string) (w : world) : path :=
  if is_abs pattern then [] else cwd w.

(** The entries a pattern matches, relative to [glob_base]. *)
Definition glob_entries (recursive : bool) (pattern : string) (w : world)
  : list path :=
  filter (λ rel, glob_match recursive (components pattern) rel = true
                 ∧ rel ≠ [])
         (entries_below (glob_base pattern w) (fs w)).

(** [glob.glob(pattern, recursive=recursive)]: the matches as strings,
    anchored like the pattern.  A match is rendered from its components:
    where the pattern starts with [./] or holds a doubled separator
    before its first wildcard, Python reports that part as written. *)
Definition glob (recursive : bool) (pattern : string) (w : world)
  : list string :=
  path_str (is_abs pattern) <$> glob_entries recursive pattern w.

(** ** The program *)

Section Program.

(** What an external command does to the file system when it is run
    with the given argument vector; [None] is a non-zero exit status. *)
Variable tool : list string → gmap path node → option (gmap path node).

(** [prettyfmt.fmt_path], a third-party formatter for paths in
    messages. *)
Variable fmt_path : string → string.

(** *** [pip_build_standalone.cli_utils] *)

(** Modelled from the spec: [cli_utils.info], [warn] and [success] are
    not part of the sources; they are the logging helpers of the spec's
    scope section, each reporting one message to the operator. *)
Definition info (msg : string) : M unit := modify (emit (EvInfo msg)).
Definition warn (msg : string) : M unit := modify (emit (EvWarn msg)).
Definition success (msg : string) : M unit := modify (emit (EvSuccess msg)).

(** Modelled from the spec: [cli_utils.run] is not part of the sources;
    it is the spec's Process Runner, which executes an external command
    and raises on a non-zero exit. *)
Definition run (cmd : list string) : M unit :=
  modify (emit (EvRun cmd)) ;;
  let* m := gets fs in
  match tool cmd m with
  | Some m' => modify (with_fs m')
  | None => raise (CalledProcessError cmd)
  end.

(** *** [pip_build_standalone.search_replace_files] *)

(** Modelled from the spec: the expansion of the glob patterns of
    [search_replace_in_files] (spec 4.3: each pattern is expanded with
    recursive wildcards into concrete file paths and the results are
    united). *)
Definition file_set (glob_patterns : list string) (w : world) : list path :=
  remove_dups
    (glob_patterns ≫= λ pat, key (cwd w) <$> glob true pat w).

(** Modelled from the spec: what [search_replace_in_files] does with one
    path of the file set (spec 4.3: the file is read as raw bytes and
    scanned; in replace mode a file with at least one occurrence is
    written back with every occurrence replaced, any other file is left
    alone; in scan-only mode nothing is written). *)
Definition search_replace_file (old_bytes : bytes)
    (new_bytes : option bytes) (k : path) : M nat :=
  let* entry := gets (λ w, fs w !! k) in
  match entry with
  | Some (File content _) =>
      let n := count old_bytes content in
      if bool_decide (0 < n) then
        match new_bytes with
        | Some new => write_bytes k (replace old_bytes new content) ;; ret n
        | None => ret n
        end
      else ret n
  | _ => ret 0
  end.

Fixpoint count_loop (total : nat) (files : list path) (f : path → M nat)
  : M nat :=
  match files with
  | [] => ret total
  | k :: rest => let* n := f k in count_loop (total + n) rest f
  end.

(** Modelled from the spec: [search_replace_in_files] is not part of the
    sources; spec 4.3 gives its contract: it returns the total
    occurrence count across all scanned files. *)
Definition search_replace_in_files (glob_patterns : list string)
    (old_bytes : bytes) (new_bytes : option bytes) : M nat :=
  let* files := gets (file_set glob_patterns) in
  count_loop 0 files (search_replace_file old_bytes new_bytes).

(** *** [pip_build_standalone.build] *)

Fixpoint has_char (c : ascii) (s : string) : bool :=
  match s with
  | EmptyString => false
  | String d s' => Ascii.eqb c d || has_char c s'
  end.

(** One hexadecimal digit, in lower case. *)
Definition hex_digit (n : nat) : ascii :=
  if (n <? 10)%nat then ascii_of_nat (48 + n) else ascii_of_nat (87 + n).

(** One character inside [repr] of a [str] that is delimited by
    [quote]: the delimiter and the backslash are escaped, control
    characters are written as escapes, every other character stands for
    itself (the bytes of a character outside ASCII are kept, as for a
    printable character). *)
Definition repr_char (quote c : ascii) : string :=
  let n := nat_of_ascii c in
  if Ascii.eqb c quote || Ascii.eqb c "\"%char
  then String "\"%char (String c EmptyString)
  else if Ascii.eqb c "009"%char then "\t"
  else if Ascii.eqb c "010"%char then "\n"
  else if Ascii.eqb c "013"%char then "\r"
  else if (n <? 32)%nat || (n =? 127)%nat
  then String "\"%char
         (String "x"%char
            (String (hex_digit (n / 16))
               (String (hex_digit (n mod 16)) EmptyString)))
  else String c EmptyString.

Fixpoint repr_chars (quote : ascii) (s : string) : string :=
  match s with
  | EmptyString => EmptyString
  | String c s' => repr_char quote c +:+ repr_chars quote s'
  end.

(** [repr(s)] for a [str]: single quotes, unless the string holds a
    single quote and no double quote. *)
Definition repr_str (s : string) : string :=
  let quote :=
    if has_char "'"%char s && negb (has_char "034"%char s)
    then "034"%char else "'"%char in
  String quote (repr_chars quote s) +:+ String quote EmptyString.

(** The rendering of a list of strings inside an f-string. *)
Definition repr_list (l : list string) : string :=
  "[" +:+ join_str ", " (repr_str <$> l) +:+ "]".

(** The body of the loop of [clean_pycache_dirs].  [os.walk] names a
    directory by the path it was given followed by the components
    below it; the model names it by its absolute path, which is the same
    string for the resolved path the builder passes. *)
Definition pycache_body (dirpath : path) (dirnames _filenames : list string)
  : M unit :=
  if bool_decide ("__pycache__" ∈ dirnames) then
    let pycache_path := dirpath ++ ["__pycache__"] in
    rmtree pycache_path ;;
    info ("Removed: " +:+ fmt_path (path_str true pycache_path))
  else ret tt.

Definition clean_pycache_dirs (dir_path : string) : M unit :=
  let* top := gets (λ w, key (cwd w) dir_path) in
  let* depth := gets (λ w, S (fs_depth (fs w))) in
  os_walk depth pycache_body top.

Definition update_macos_dylib_ids (python_root : string) : M unit :=
  let glob_pattern := python_root +:+ "/lib/**/*.dylib" in
  let* dylib_paths := gets (glob true glob_pattern) in
  for_each dylib_paths (λ dylib_path,
    info ("Found macos dylib, will update its id to remove any absolute paths: "
          +:+ dylib_path) ;;
    match relative_to dylib_path python_root with
    | None => raise (ValueError dylib_path)
    | Some rel_path =>
        run ["install_name_tool"; "-id";
             "@executable_path/../" +:+ rel_path; dylib_path]
    end).

Definition replace_absolute_paths (python_root old_path_str new_path_str : string)
  : M unit :=
  let text_glob := [python_root +:+ "/bin/*"; python_root +:+ "/lib/**/*.py"] in
  info EmptyString ;;
  info ("Replacing all absolute paths in: " +:+ repr_list text_glob +:+ ": `"
        +:+ old_path_str +:+ "` -> `" +:+ new_path_str +:+ "`") ;;
  search_replace_in_files text_glob (encode old_path_str)
    (Some (encode new_path_str)) ;;
  info EmptyString ;;
  info "Sanity checking if any absolute paths remain..." ;;
  let all_files_glob := [python_root +:+ "/**/*"] in
  let* matches := search_replace_in_files all_files_glob
                    (encode old_path_str) None in
  if bool_decide (matches ≠ 0) then
    warn ("Found " +:+ pretty matches +:+ " matches of `" +:+ old_path_str
          +:+ "` in binary files (see above)")
  else
    info "Great! No absolute paths found in the installed files.".

Definition build_python_env (package_list : list string)
    (target_dir python_version : string) (force : bool) : M unit :=
  let* target_absolute := resolve target_dir in
  let* present := exists_ target_dir in
  if present && negb force then
    raise (FileExistsError
      ("target directory already exists (run with --force to run anyway): "
       +:+ target_dir))
  else
  run ["uv"; "python"; "install"; "--managed-python"; "--install-dir";
       target_absolute; python_version] ;;
  let install_root_pat :=
    os_path_join target_dir ("cpython-" +:+ python_version +:+ ".*") in
  let* install_root_paths := gets (glob false install_root_pat) in
  match install_root_paths with
  | [] =>
      raise (FileNotFoundError
        ("Failed to find venv root at: " +:+ install_root_pat))
  | first :: _ =>
      let install_root := Path first in
      let pip_path := path_div (path_div install_root "bin") "pip" in
      let* pip_present := exists_ pip_path in
      if negb pip_present then
        raise (FileNotFoundError
          ("Failed to find pip at: " +:+ fmt_path pip_path))
      else
      run (["uv"; "pip"; "install"] ++ package_list ++
           ["--python"; install_root; "--break-system-packages"]) ;;
      clean_pycache_dirs target_absolute ;;
      (let* os := gets platform in
       if bool_decide (os = "darwin")
       then update_macos_dylib_ids install_root else ret tt) ;;
      replace_absolute_paths install_root target_absolute target_dir ;;
      success ("Created standalone Python environment for packages "
               +:+ repr_list package_list +:+ " at: " +:+ fmt_path target_dir)
  end.

(** The three phases of [build_python_env], used to say where a run
    stands: lines 22-48 find the Install Root, lines 50-70 install the
    packages and tidy up, lines 73-77 relocate and report. *)
Definition locate_install_root (target_dir python_version : string)
    (force : bool) : M (string * string) :=
  let* target_absolute := resolve target_dir in
  let* present := exists_ target_dir in
  if present && negb force then
    raise (FileExistsError
      ("target directory already exists (run with --force to run anyway): "
       +:+ target_dir))
  else
  run ["uv"; "python"; "install"; "--managed-python"; "--install-dir";
       target_absolute; python_version] ;;
  let install_root_pat :=
    os_path_join target_dir ("cpython-" +:+ python_version +:+ ".*") in
  let* install_root_paths := gets (glob false install_root_pat) in
  match install_root_paths with
  | [] =>
      raise (FileNotFoundError
        ("Failed to find venv root at: " +:+ install_root_pat))
  | first :: _ => ret (target_absolute, Path first)
  end.

Definition install_packages (package_list : list string)
    (target_absolute install_root : string) : M unit :=
  let pip_path := path_div (path_div install_root "bin") "pip" in
  let* pip_present := exists_ pip_path in
  if negb pip_present then
    raise (FileNotFoundError
      ("Failed to find pip at: " +:+ fmt_path pip_path))
  else
  run (["uv"; "pip"; "install"] ++ package_list ++
       ["--python"; install_root; "--break-system-packages"]) ;;
  clean_pycache_dirs target_absolute ;;
  (let* os := gets platform in
   if bool_decide (os = "darwin")
   then update_macos_dylib_ids install_root else ret tt).

Definition relocate_and_report (package_list : list string)
    (target_dir target_absolute install_root : string) : M unit :=
  replace_absolute_paths install_root target_absolute target_dir ;;
  success ("Created standalone Python environment for packages "
           +:+ repr_list package_list +:+ " at: " +:+ fmt_path target_dir).

End Program.

(** ** Vocabulary of the statements *)

(** The occurrences the scan finds in the entry at [k]; an entry that is
    not a regular file has none. *)
Definition file_count (old : bytes) (m : gmap path node) (k : path) : nat :=
  match m !! k with
  | Some (File content _) => count old content
  | _ => 0
  end.

(** The world after the replace-mode treatment of the single path [k]. *)
Definition patch_file (old new : bytes) (w : world) (k : path) : world :=
  match fs w !! k with
  | Some (File content _) =>
      if bool_decide (0 < count old content)
      then World (<[k := File (replace old new content) (clock w)]> (fs w))
                 (cwd w) (platform w) (S (clock w)) (trace w)
      else w
  | _ => w
  end.

(** The argument vectors of the external commands in a trace, in order. *)
Definition commands (tr : list event) : list (list string) :=
  omap (λ e, match e with EvRun cmd => Some cmd | _ => None end) tr.

(** [k] is a directory named [__pycache__] somewhere below [top], or lies
    inside one. *)
Definition in_pycache (m : gmap path node) (top k : path) : Prop :=
  ∃ d : path,
    (top ++ d ++ ["__pycache__"]) `prefix_of` k ∧
    m !! (top ++ d ++ ["__pycache__"]) = Some Dir.

(** [m'] is [m] without the entries that satisfy [P]. *)
Definition pruned (P : path → Prop) (m m' : gmap path node) : Prop :=
  (∀ k v, m' !! k = Some v → m !! k = Some v) ∧
  (∀ k, P k → m' !! k = None) ∧
  (∀ k, ¬ P k → m' !! k = m !! k).

(** A check of [wf_fs] that can be run. *)
Definition wf_fs_check (m : gmap path node) : bool :=
  bool_decide
    (map_Forall (λ k _, k = [] ∨ m !! removelast k = Some Dir) m).

(** The closing message of the verification scan for [n] matches. *)
Definition verdict (old_path_str : string) (n : nat) : event :=
  if bool_decide (n ≠ 0)
  then EvWarn ("Found " +:+ pretty n +:+ " matches of `" +:+ old_path_str
               +:+ "` in binary files (see above)")
  else EvInfo "Great! No absolute paths found in the installed files.".

(** The command line that installs the interpreter. *)
Definition install_python_cmd (target_absolute python_version : string)
  : list string :=
  ["uv"; "python"; "install"; "--managed-python"; "--install-dir";
   target_absolute; python_version].

(** The command line that patches the identity of one library. *)
Definition install_name_cmd (dylib_path rel_path : string) : list string :=
  ["install_name_tool"; "-id"; "@executable_path/../" +:+ rel_path;
   dylib_path].

(** ** A sample tree

    An interpreter tree as the package manager leaves it below
    [/srv/env], seen from the working directory [/srv]. *)

Definition sample_root : path := ["srv"; "env"; "cpython-3.13.1-linux"].

Definition sample_fs : gmap path node :=
  list_to_map
    [ ([], Dir); (["srv"], Dir); (["srv"; "env"], Dir);
      (sample_root, Dir);
      (sample_root ++ ["bin"], Dir);
      (sample_root ++ ["bin"; "pip"],
       File (encode "#!/srv/env/cpython-3.13.1-linux/bin/python3") 0);
      (sample_root ++ ["lib"], Dir);
      (sample_root ++ ["lib"; "site.py"], File (encode "import sys") 0);
      (sample_root ++ ["lib"; "conf.py"],
       File (encode "prefix = '/srv/env'") 0);
      (sample_root ++ ["lib"; "README.txt"],
       File (encode "installed into /srv/env") 0);
      (sample_root ++ ["lib"; "libz.dylib"], File (encode "/srv/env/lib") 0);
      (sample_root ++ ["lib"; "__pycache__"], Dir);
      (sample_root ++ ["lib"; "__pycache__"; "site.pyc"],
       File (encode "bytecode") 0);
      (sample_root ++ ["lib"; "pkg"], Dir);
      (sample_root ++ ["lib"; "pkg"; "mod.py"], File (encode "x = 1") 0);
      (sample_root ++ ["lib"; "pkg"; "__pycache__"], Dir);
      (sample_root ++ ["lib"; "pkg"; "__pycache__"; "mod.pyc"],
       File (encode "bytecode") 0) ].

Definition sample_world : world := World sample_fs ["srv"] "linux" 1 [].

Definition sample_patterns : list string :=
  ["env/cpython-3.13.1-linux/bin/*"; "env/cpython-3.13.1-linux/lib/**/*.py"].

Definition pip_key : path := sample_root ++ ["bin"; "pip"].
Definition pip_content : bytes :=
  encode "#!/srv/env/cpython-3.13.1-linux/bin/python3".
Definition site_key : path := sample_root ++ ["lib"; "site.py"].
Definition readme_key : path := sample_root ++ ["lib"; "README.txt"].

(** The target directory before anything is installed, on macOS. *)
Definition bare_world : world :=
  World (list_to_map [([], Dir); (["srv"], Dir)]) ["srv"] "darwin" 1 [].

(** A stand-in for the external tools: installing the interpreter
    produces the sample tree, every other command succeeds without
    touching a file. *)
Definition sample_tool (cmd : list string) (m : gmap path node)
  : option (gmap path node) :=
  match cmd with
  | "uv" :: "python" :: _ => Some sample_fs
  | _ => Some m
  end.

(** The world right after the interpreter has been installed. *)
Definition installed_world : world :=
  with_fs sample_fs
    (emit (EvRun (install_python_cmd "/srv/env" "3.13")) bare_world).

(** The exception a run ends with, if any. *)
Definition failure {A} (r : outcome A) : option exn :=
  match r with
  | Ok _ => None
  | Raise e => Some e
  end.

(** Plain log lines, and the final report. *)
Definition is_info (e : event) : Prop :=
  match e with EvInfo _ => True | _ => False end.

Definition is_log (e : event) : Prop :=
  match e with EvInfo _ | EvWarn _ => True | _ => False end.

Definition is_report (e : event) : Prop :=
  match e with EvSuccess _ => True | _ => False end.

(** A run of [c] from [w] keeps the working directory and the platform,
    never emits the final report, never raises [FileExistsError], and
    raises [CalledProcessError] only for the command it ran last. *)
Definition orderly_at {A} (c : M A) (w : world) : Prop :=
  ∀ r w', c w = (r, w') →
    ∃ evs,
      trace w' = trace w ++ evs ∧ cwd w' = cwd w ∧
      platform w' = platform w ∧
      Forall (λ e, ¬ is_report e) evs ∧
      match failure r with
      | Some (CalledProcessError cmd) => last evs = Some (EvRun cmd)
      | Some (FileExistsError _) => False
      | _ => True
      end.

Definition orderly {A} (c : M A) : Prop := ∀ w, orderly_at c w.

(** A run of [c] from [w] emits the final report as its last event
    exactly when it returns normally, and is otherwise like an orderly
    one. *)
Definition finishing_at (c : M unit) (w : world) : Prop :=
  ∀ r w', c w = (r, w') →
    ∃ evs,
      trace w' = trace w ++ evs ∧
      match r with
      | Ok _ =>
          ∃ msg evs0, evs = evs0 ++ [EvSuccess msg] ∧
                      Forall (λ e, ¬ is_report e) evs0
      | Raise e =>
          Forall (λ e, ¬ is_report e) evs ∧
          match e with
          | CalledProcessError cmd => last evs = Some (EvRun cmd)
          | FileExistsError _ => False
          | _ => True
          end
      end.

Definition finishing (c : M unit) : Prop := ∀ w, finishing_at c w.

(** The command line that installs the packages. *)
Definition pip_install_cmd (package_list : list string) (install_root : string)
  : list string :=
  ["uv"; "pip"; "install"] ++ package_list ++
  ["--python"; install_root; "--break-system-packages"].

(** The log line for the removal of a directory named [__pycache__]
    that the tree [m] holds below [top]. *)
Definition is_removal (fmt_path : string → string) (m : gmap path node)
    (top : path) (e : event) : Prop :=
  ∃ d : path,
    e = EvInfo ("Removed: " +:+
                fmt_path (path_str true (top ++ d ++ ["__pycache__"]))) ∧
    m !! (top ++ d ++ ["__pycache__"]) = Some Dir.

(** [w'] is [w] after a cleanup below [top] that only logs and only
    deletes: the new events are removal lines, an entry still present is
    unchanged, and an entry that is gone lay at or inside a directory
    component named [__pycache__] below [top]. *)
Definition tidied (fmt_path : string → string) (top : path) (w w' : world)
  : Prop :=
  (∃ evs, trace w' = trace w ++ evs ∧
          Forall (is_removal fmt_path (fs w) top) evs) ∧
  cwd w' = cwd w ∧ platform w' = platform w ∧ clock w' = clock w ∧
  (∀ k v, fs w' !! k = Some v → fs w !! k = Some v) ∧
  (∀ k, fs w' !! k ≠ fs w !! k →
        ∃ d rest, k = top ++ d ++ "__pycache__" :: rest).





(** A check that no regular file of [m] contains [old]. *)
Definition clean_of (old : bytes) (m : gmap path node) : bool :=
  bool_decide
    (map_Forall (λ (_ : path) (v : node),
                   match v with
                   | File content _ => Nat.eqb (count old content) 0
                   | Dir => true
                   end = true) m).

(** A check that no entry of [m] is named [__pycache__]. *)
Definition cache_free (m : gmap path node) : bool :=
  bool_decide
    (map_Forall (λ (k : path) (_ : node), last k ≠ Some "__pycache__") m).

(** ** More sample trees *)

(** A stand-in for the external tools when the package installation
    fails. *)
Definition failing_pip_tool (cmd : list string) (m : gmap path node)
  : option (gmap path node) :=
  match cmd with
  | "uv" :: "python" :: _ => Some sample_fs
  | "uv" :: "pip" :: _ => None
  | _ => Some m
  end.

(** An interpreter tree that lacks [bin/pip] and holds no cache. *)
Definition no_pip_fs : gmap path node :=
  list_to_map
    [ ([], Dir); (["srv"], Dir); (["srv"; "env"], Dir);
      (sample_root, Dir);
      (sample_root ++ ["bin"], Dir);
      (sample_root ++ ["bin"; "python3"], File (encode "ELF") 0);
      (sample_root ++ ["lib"], Dir);
      (sample_root ++ ["lib"; "site.py"], File (encode "import sys") 0) ].

Definition no_pip_tool (cmd : list string) (m : gmap path node)
  : option (gmap path node) :=
  match cmd with
  | "uv" :: "python" :: _ => Some no_pip_fs
  | _ => Some m
  end.

(** The world right after that interpreter has been installed. *)
Definition no_pip_world : world :=
  with_fs no_pip_fs
    (emit (EvRun (install_python_cmd "/srv/env" "3.13")) bare_world).

(** A tree with a file in which the path [/a/a] overlaps itself. *)
Definition overlap_key : path := ["srv"; "a"; "notes.txt"].

Definition overlap_world : world :=
  World (list_to_map
           [ ([], Dir); (["srv"], Dir); (["srv"; "a"], Dir);
             (overlap_key, File (encode "/a/a/a") 0) ])
    ["srv"] "linux" 1 [].

(** A stand-in for the external tools that installs nothing. *)
Definition idle_tool (cmd : list string) (m : gmap path node)
  : option (gmap path node) := Some m.

(** * Facts about the byte-string scan *)

Section BytesFacts.

Implicit Types old new s t : bytes.

Lemma starts_with_prefix pat s :
  starts_with pat s = true ↔ pat `prefix_of` s.
Proof.
  revert s. induction pat as [|a pat IH]; intros [|b s]; simpl.
  - split; [intros _; apply prefix_nil | done].
  - split; [intros _; apply prefix_nil | done].
  - split; [done | intros H; by apply prefix_nil_inv in H].
  - case_decide as Hab.
    + subst b. rewrite IH. split.
      * apply prefix_cons.
      * apply prefix_cons_inv_2.
    + split; [done | intros H; by apply prefix_cons_inv_1 in H].
Qed.

Lemma starts_with_app pat s :
  starts_with pat s = true → s = pat ++ drop (length pat) s.
Proof.
  rewrite starts_with_prefix. intros [suf ->].
  by rewrite drop_app_length.
Qed.

(** Behind an occurrence at the head of [b :: s]. *)
Lemma starts_with_rest a old b s :
  starts_with (a :: old) (b :: s) = true →
  b :: s = (a :: old) ++ drop (pred (length (a :: old))) s.
Proof. intros H. apply starts_with_app in H. exact H. Qed.

Lemma occurs_nil_inv old : occurs old [] → old = [].
Proof.
  intros (pre & suf & H). symmetry in H.
  apply app_eq_nil in H as [_ H]. by apply app_eq_nil in H as [H _].
Qed.

Lemma occurs_prefix old s : old `prefix_of` s → occurs old s.
Proof. intros [suf ->]. by exists [], suf. Qed.

Lemma occurs_cons old b s : occurs old s → occurs old (b :: s).
Proof. intros (pre & suf & ->). by exists (b :: pre), suf. Qed.

Lemma occurs_cons_inv old b s :
  occurs old (b :: s) → old `prefix_of` (b :: s) ∨ occurs old s.
Proof.
  intros ([|c pre] & suf & H); simpl in H.
  - left. by exists suf.
  - right. injection H as _ ->. by exists pre, suf.
Qed.

Lemma occurs_app_r old pre s : occurs old s → occurs old (pre ++ s).
Proof. induction pre; simpl; auto using occurs_cons. Qed.

Lemma occurs_app_l old s suf : occurs old s → occurs old (s ++ suf).
Proof.
  intros (pre & suf' & ->). exists pre, (suf' ++ suf).
  by rewrite <- !(assoc_L (++)).
Qed.

(** The fuel of the scan does not matter once it exceeds the length. *)
Lemma count_go_fuel old s n m :
  length s < n → length s < m →
  Scan.count_go n old s = Scan.count_go m old s.
Proof.
  revert s m. induction n as [|n IH]; intros s m Hn Hm; [lia|].
  destruct m as [|m]; [lia|]. destruct s as [|b s]; [done|].
  cbn [Scan.count_go]. simpl in Hn, Hm.
  destruct (starts_with old (b :: s));
    [f_equal|]; apply IH; rewrite ?length_drop; lia.
Qed.

Lemma replace_go_fuel old new s n m :
  length s < n → length s < m →
  Scan.replace_go n old new s = Scan.replace_go m old new s.
Proof.
  revert s m. induction n as [|n IH]; intros s m Hn Hm; [lia|].
  destruct m as [|m]; [lia|]. destruct s as [|b s]; [done|].
  cbn [Scan.replace_go]. simpl in Hn, Hm.
  destruct (starts_with old (b :: s));
    f_equal; apply IH; rewrite ?length_drop; lia.
Qed.

(** The equations of [count] and [replace] for a non-empty [old]. *)
Lemma count_nil old : old ≠ [] → count old [] = 0.
Proof. by destruct old. Qed.

Lemma count_cons old b s :
  old ≠ [] →
  count old (b :: s) =
    if starts_with old (b :: s)
    then S (count old (drop (pred (length old)) s))
    else count old s.
Proof.
  destruct old as [|a old]; [done|]. intros _. unfold count.
  change (Scan.count_go (S (length (b :: s))) (a :: old) (b :: s))
    with (if starts_with (a :: old) (b :: s)
          then S (Scan.count_go (S (length s)) (a :: old)
                    (drop (pred (length (a :: old))) s))
          else Scan.count_go (S (length s)) (a :: old) s).
  destruct (starts_with _ _); [|done].
  f_equal. apply count_go_fuel; rewrite ?length_drop; lia.
Qed.

Lemma replace_nil old new : old ≠ [] → replace old new [] = [].
Proof. by destruct old. Qed.

Lemma replace_cons old new b s :
  old ≠ [] →
  replace old new (b :: s) =
    if starts_with old (b :: s)
    then new ++ replace old new (drop (pred (length old)) s)
    else b :: replace old new s.
Proof.
  destruct old as [|a old]; [done|]. intros _. unfold replace.
  change (Scan.replace_go (S (length (b :: s))) (a :: old) new (b :: s))
    with (if starts_with (a :: old) (b :: s)
          then new ++ Scan.replace_go (S (length s)) (a :: old) new
                        (drop (pred (length (a :: old))) s)
          else b :: Scan.replace_go (S (length s)) (a :: old) new s).
  destruct (starts_with _ _); [|done].
  f_equal. apply replace_go_fuel; rewrite ?length_drop; lia.
Qed.

(** Induction along the scan. *)
Lemma scan_ind old (P : bytes → Prop) :
  P [] →
  (∀ b s, starts_with old (b :: s) = true →
          P (drop (pred (length old)) s) → P (b :: s)) →
  (∀ b s, starts_with old (b :: s) = false → P s → P (b :: s)) →
  ∀ s, P s.
Proof.
  intros Hnil Hhit Hmiss s.
  assert (∀ n s, length s ≤ n → P s) as H; [|by apply (H (length s))].
  clear s. induction n as [|n IH]; intros [|b s] Hlen; simpl in *;
    try done; try lia.
  destruct (starts_with old (b :: s)) eqn:Hsw.
  - apply Hhit; [done|]. apply IH. rewrite length_drop. lia.
  - apply Hmiss; [done|]. apply IH. lia.
Qed.

(** The scan finds an occurrence exactly when there is one. *)
Lemma count_pos_occurs old s : 0 < count old s ↔ occurs old s.
Proof.
  destruct (decide (old = [])) as [->|Hne].
  { split; [intros _; by exists [], s | simpl; lia]. }
  induction s as [|b s Hsw IH|b s Hsw IH] using (scan_ind old).
  - rewrite count_nil by done. split; [lia|].
    intros H. by apply occurs_nil_inv in H.
  - rewrite count_cons, Hsw by done. split; [|lia].
    intros _. by apply occurs_prefix, starts_with_prefix.
  - rewrite count_cons, Hsw, IH by done. split; [apply occurs_cons|].
    intros [H|H]%occurs_cons_inv; [|done].
    apply starts_with_prefix in H. congruence.
Qed.

Lemma count_zero_occurs old s : count old s = 0 ↔ ¬ occurs old s.
Proof. rewrite <- count_pos_occurs. lia. Qed.

(** Without an occurrence, replacing copies the content. *)
Lemma replace_absent old new s : ¬ occurs old s → replace old new s = s.
Proof.
  destruct (decide (old = [])) as [->|Hne].
  { intros []. by exists [], s. }
  induction s as [|b s IH]; intros Hno; [by apply replace_nil|].
  rewrite replace_cons by done.
  destruct (starts_with old (b :: s)) eqn:Hsw.
  - destruct Hno. by apply occurs_prefix, starts_with_prefix.
  - f_equal. apply IH. intros H. by apply Hno, occurs_cons.
Qed.

Lemma join_bytes_cons sep s segs :
  segs ≠ [] → join_bytes sep (s :: segs) = s ++ sep ++ join_bytes sep segs.
Proof. by destruct segs. Qed.

Lemma join_bytes_head sep b seg segs :
  join_bytes sep ((b :: seg) :: segs) = b :: join_bytes sep (seg :: segs).
Proof. by destruct segs. Qed.

Lemma join_bytes_singletons sep s :
  join_bytes sep (((λ b, [b]) <$> s) ++ [[]]) = flat_map (λ b, b :: sep) s.
Proof.
  induction s as [|b s IH]; [done|].
  change (((λ b, [b]) <$> b :: s) ++ [[]])
    with ([b] :: (((λ b, [b]) <$> s) ++ [[]])).
  rewrite join_bytes_cons, IH; [done|]. by destruct s.
Qed.

(** [replace] is [new.join(s.split(old))]: the content is cut at the
    occurrences the scan finds, the pieces in between are kept byte for
    byte, and no piece contains a further occurrence. *)
Lemma replace_segments old new s :
  ∃ segs : list bytes,
    s = join_bytes old segs ∧
    replace old new s = join_bytes new segs ∧
    length segs = S (count old s) ∧
    (old ≠ [] → Forall (λ seg, ¬ occurs old seg) segs).
Proof.
  destruct (decide (old = [])) as [->|Hne].
  { exists ([] :: (((λ b, [b]) <$> s) ++ [[]])). simpl count. simpl replace.
    rewrite !join_bytes_cons, !join_bytes_singletons by (by destruct s).
    split_and!; [|done| |done].
    - clear. induction s as [|b s IH]; simpl in *; congruence.
    - simpl. rewrite length_app, length_fmap. simpl. lia. }
  induction s as [|b s Hsw IH|b s Hsw IH] using (scan_ind old).
  - exists [[]]. rewrite replace_nil, count_nil by done.
    split_and!; try done. intros _. constructor; [|done].
    intros H. by apply occurs_nil_inv in H.
  - destruct IH as (segs & Hs & Hr & Hlen & Hfree).
    exists ([] :: segs). rewrite replace_cons, count_cons, Hsw by done.
    assert (segs ≠ []) as Hsegs by (intros ->; done).
    rewrite !join_bytes_cons by done. simpl.
    split_and!.
    + rewrite <- Hs. destruct old as [|a old]; [done|].
      by apply starts_with_rest.
    + by rewrite Hr.
    + lia.
    + intros _. constructor; [|by apply Hfree].
      intros Hocc. by apply occurs_nil_inv in Hocc.
  - destruct IH as (segs & Hs & Hr & Hlen & Hfree).
    destruct segs as [|seg segs]; [done|].
    exists ((b :: seg) :: segs).
    rewrite replace_cons, count_cons, Hsw, !join_bytes_head by done.
    split_and!; [by rewrite Hs | by rewrite Hr | done |].
    intros _. specialize (Hfree Hne).
    apply Forall_cons in Hfree as [Hseg Hsegs]. constructor; [|done].
    intros [H|H]%occurs_cons_inv; [|done].
    assert ((b :: seg) `prefix_of` (b :: s)) as Hpre.
    { apply prefix_cons. rewrite Hs.
      destruct segs; [done|]. by apply prefix_app_r. }
    assert (old `prefix_of` (b :: s)) as Hold by (by etrans).
    apply starts_with_prefix in Hold. congruence.
Qed.

(** When [new] is non-empty and shares no byte with [old], replacing
    cannot assemble a new occurrence of [old]. *)
(** ** Occurrences and the scan *)

Lemma occurrences_nil old : old ≠ [] → occurrences old [] = 0.
Proof. by destruct old. Qed.

Lemma occurrences_empty s : occurrences [] s = S (length s).
Proof. induction s as [|b s IH]; simpl in *; [done|]. by rewrite IH. Qed.

Lemma occurrences_app_r old pre s :
  occurrences old s ≤ occurrences old (pre ++ s).
Proof.
  induction pre as [|b pre IH]; [done|].
  change (occurrences old ((b :: pre) ++ s))
    with ((if starts_with old (b :: pre ++ s) then 1 else 0)
          + occurrences old (pre ++ s)).
  lia.
Qed.

(** The scan never finds more occurrences than there are positions at
    which [old] starts. *)
Lemma count_le_occurrences old s : count old s ≤ occurrences old s.
Proof.
  destruct (decide (old = [])) as [->|Hne].
  { by rewrite occurrences_empty. }
  induction s as [|b s Hsw IH|b s Hsw IH] using (scan_ind old).
  - rewrite count_nil by done. lia.
  - rewrite count_cons, Hsw by done.
    change (occurrences old (b :: s))
      with ((if starts_with old (b :: s) then 1 else 0) + occurrences old s).
    rewrite Hsw.
    pose proof (occurrences_app_r old (take (pred (length old)) s)
                  (drop (pred (length old)) s)) as Hle.
    rewrite take_drop in Hle. lia.
  - rewrite count_cons, Hsw by done.
    change (occurrences old (b :: s))
      with ((if starts_with old (b :: s) then 1 else 0) + occurrences old s).
    rewrite Hsw. lia.
Qed.

(** No occurrence starts inside an occurrence of a byte string that
    cannot overlap itself. *)
Lemma occurrences_behind old (rest : bytes) i :
  overlap_free old → 0 < i ≤ length old →
  occurrences old (drop i old ++ rest) = occurrences old rest.
Proof.
  intros Hfree Hi.
  remember (length old - i) as d eqn:Hd. revert i Hi Hd.
  induction d as [|d IH]; intros i Hi Hd.
  { by rewrite drop_ge by lia. }
  destruct (drop i old) as [|a tl] eqn:Hdrop.
  { apply (f_equal length) in Hdrop. rewrite length_drop in Hdrop.
    simpl in Hdrop. lia. }
  assert (drop (S i) old = tl) as Htl.
  { by rewrite <- (Nat.add_1_r i), <- drop_drop, Hdrop. }
  change (occurrences old ((a :: tl) ++ rest))
    with ((if starts_with old (a :: tl ++ rest) then 1 else 0)
          + occurrences old (tl ++ rest)).
  rewrite <- Htl, IH by lia.
  destruct (starts_with old (a :: drop (S i) old ++ rest)) eqn:Hsw; [|done].
  exfalso. apply (Hfree i); [lia|].
  apply starts_with_prefix in Hsw. rewrite Htl in Hsw.
  change (a :: tl ++ rest) with ((a :: tl) ++ rest) in Hsw.
  rewrite <- Hdrop in Hsw.
  destruct (prefix_weak_total old (drop i old) (drop i old ++ rest))
    as [Hpre|Hpre]; [done|by apply prefix_app_r| |done].
  apply prefix_length in Hpre. rewrite length_drop in Hpre. lia.
Qed.

(** For a byte string that cannot overlap itself the scan finds every
    occurrence. *)
Lemma count_occurrences old s :
  overlap_free old → count old s = occurrences old s.
Proof.
  intros Hfree.
  destruct (decide (old = [])) as [->|Hne].
  { by rewrite occurrences_empty. }
  induction s as [|b s Hsw IH|b s Hsw IH] using (scan_ind old).
  - by rewrite count_nil, occurrences_nil.
  - rewrite count_cons, Hsw, IH by done.
    change (occurrences old (b :: s))
      with ((if starts_with old (b :: s) then 1 else 0) + occurrences old s).
    rewrite Hsw. simpl. f_equal.
    destruct old as [|a old']; [done|].
    pose proof (starts_with_rest _ _ _ _ Hsw) as Heq.
    set (rest := drop (pred (length (a :: old'))) s) in *.
    injection Heq as _ Hs. rewrite Hs.
    symmetry. apply (occurrences_behind (a :: old') rest 1 Hfree). simpl. lia.
  - rewrite count_cons, Hsw, IH by done.
    change (occurrences old (b :: s))
      with ((if starts_with old (b :: s) then 1 else 0) + occurrences old s).
    by rewrite Hsw.
Qed.

Lemma join_bytes_prepend (sep x seg : bytes) segs :
  x ++ join_bytes sep (seg :: segs) = join_bytes sep ((x ++ seg) :: segs).
Proof.
  destruct segs as [|seg' segs]; [done|].
  rewrite (join_bytes_cons sep seg), (join_bytes_cons sep (x ++ seg)) by done.
  by rewrite <- (assoc_L (++)).
Qed.

(** No cut of [s] at occurrences of [old] has more pieces than the cut
    the scan makes. *)
Lemma count_max_cut old s segs :
  old ≠ [] → s = join_bytes old segs → length segs ≤ S (count old s).
Proof.
  intros Hne. revert segs.
  induction s as [|b s Hsw IH|b s Hsw IH] using (scan_ind old);
    intros segs Hs.
  - destruct segs as [|seg [|seg' segs]]; simpl; [lia..|].
    rewrite join_bytes_cons in Hs by done.
    symmetry in Hs. apply app_eq_nil in Hs as [_ Hs].
    apply app_eq_nil in Hs as [Hs _]. done.
  - rewrite count_cons, Hsw by done.
    destruct segs as [|seg [|seg' segs]]; simpl; [lia..|].
    rewrite join_bytes_cons in Hs by done.
    destruct old as [|a old']; [done|].
    assert (drop (pred (length (a :: old'))) s
            = join_bytes (a :: old')
                ((drop (length (a :: old')) (seg ++ a :: old') ++ seg')
                 :: segs)) as Hrest.
    { change (drop (pred (length (a :: old'))) s)
        with (drop (length (a :: old')) (b :: s)).
      rewrite Hs, (assoc_L (++)), drop_app_le
        by (rewrite length_app; simpl; lia).
      by rewrite join_bytes_prepend. }
    specialize (IH _ Hrest). simpl in *. lia.
  - rewrite count_cons, Hsw by done.
    destruct segs as [|seg [|seg' segs]]; simpl; [lia..|].
    rewrite join_bytes_cons in Hs by done.
    destruct seg as [|c seg].
    + exfalso. assert (starts_with old (b :: s) = true); [|congruence].
      rewrite Hs. apply starts_with_prefix. by eexists.
    + simpl in Hs. injection Hs as -> ->.
      specialize (IH (seg :: seg' :: segs)).
      rewrite join_bytes_cons in IH by done.
      specialize (IH eq_refl). simpl in IH. lia.
Qed.

Section Disjoint.

Variables old new : bytes.
Hypothesis old_nonempty : old ≠ [].
Hypothesis new_nonempty : new ≠ [].
Hypothesis disjoint : ∀ x, x ∈ new → x ∉ old.

Lemma prefix_of_replace t s :
  (∀ x, x ∈ t → x ∉ new) →
  t `prefix_of` replace old new s → t `prefix_of` s.
Proof using old_nonempty new_nonempty disjoint.
  revert t.
  induction s as [|b s Hsw IH|b s Hsw IH] using (scan_ind old);
    intros t Ht.
  - by rewrite replace_nil.
  - rewrite replace_cons, Hsw by done.
    destruct new as [|n new']; [done|]. destruct t as [|x t].
    + intros _. apply prefix_nil.
    + intros Hpre. simpl in Hpre.
      pose proof (prefix_cons_inv_1 _ _ _ _ Hpre) as ->.
      destruct (Ht n); apply list_elem_of_here.
  - rewrite replace_cons, Hsw by done. destruct t as [|x t].
    + intros _. apply prefix_nil.
    + intros Hpre.
      pose proof (prefix_cons_inv_1 _ _ _ _ Hpre) as ->.
      apply prefix_cons, IH.
      * intros y Hy. apply Ht. by apply list_elem_of_further.
      * by apply prefix_cons_inv_2 in Hpre.
Qed.

Lemma occurs_behind_new (pre rest : bytes) :
  (∀ x, x ∈ pre → x ∈ new) →
  occurs old (pre ++ rest) → occurs old rest.
Proof using old_nonempty disjoint.
  induction pre as [|n pre IH]; intros Hsub; [done|]. simpl.
  intros [Hpre|H]%occurs_cons_inv.
  - destruct old as [|a old']; [done|].
    pose proof (prefix_cons_inv_1 _ _ _ _ Hpre) as ->.
    destruct (disjoint n); [apply Hsub|]; apply list_elem_of_here.
  - apply IH; [|done]. intros y Hy. apply Hsub.
    by apply list_elem_of_further.
Qed.

Lemma replace_clears s : ¬ occurs old (replace old new s).
Proof using old_nonempty new_nonempty disjoint.
  induction s as [|b s Hsw IH|b s Hsw IH] using (scan_ind old).
  - rewrite replace_nil by done. intros H. by apply occurs_nil_inv in H.
  - rewrite replace_cons, Hsw by done. intros H. apply IH.
    by apply (occurs_behind_new new).
  - rewrite replace_cons, Hsw by done.
    intros [H|H]%occurs_cons_inv; [|done].
    assert (old `prefix_of` (b :: s)) as Hold.
    { apply prefix_of_replace; [|by rewrite replace_cons, Hsw].
      intros x Hx Hn. by apply (disjoint x). }
    apply starts_with_prefix in Hold. congruence.
Qed.

Lemma replace_replace s :
  replace old new (replace old new s) = replace old new s
  ∧ count old (replace old new s) = 0.
Proof using old_nonempty new_nonempty disjoint.
  split.
  - apply replace_absent, replace_clears.
  - apply count_zero_occurs, replace_clears.
Qed.

End Disjoint.

End BytesFacts.

(** * Facts about the file system and [glob] *)

Section GlobFacts.

Implicit Types (m : gmap path node) (w : world) (k rel base : path).

Lemma elem_of_entries_below base m rel :
  rel ∈ entries_below base m ↔ is_Some (m !! (base ++ rel)).
Proof.
  unfold entries_below. rewrite list_elem_of_omap. split.
  - intros ([k nd] & Hin & Hf). apply elem_of_map_to_list in Hin.
    simpl in Hf. case_decide as Hpre; [|done]. injection Hf as <-.
    destruct Hpre as [suf ->]. rewrite drop_app_length. eauto.
  - intros [nd Hnd]. exists (base ++ rel, nd). split.
    + by apply elem_of_map_to_list.
    + simpl. rewrite decide_True by (by eexists).
      by rewrite drop_app_length.
Qed.


Lemma elem_of_glob_entries recursive pattern w rel :
  rel ∈ glob_entries recursive pattern w ↔
    glob_match recursive (components pattern) rel = true ∧ rel ≠ [] ∧
    is_Some (fs w !! (glob_base pattern w ++ rel)).
Proof.
  unfold glob_entries.
  rewrite list_elem_of_filter, elem_of_entries_below. tauto.
Qed.


(** The expansion of a pattern depends on the names present only. *)
Lemma elem_of_glob_dom recursive pattern w w' s :
  cwd w = cwd w' → dom (fs w) = dom (fs w') →
  s ∈ glob recursive pattern w → s ∈ glob recursive pattern w'.
Proof.
  intros Hcwd Hdom. unfold glob. rewrite !list_elem_of_fmap.
  intros (rel & -> & Hrel). exists rel. split; [done|].
  apply elem_of_glob_entries in Hrel as (? & ? & Hin).
  apply elem_of_glob_entries. split_and!; [done..|].
  unfold glob_base in *. rewrite <- Hcwd.
  apply elem_of_dom. rewrite <- Hdom. by apply elem_of_dom.
Qed.

Lemma elem_of_file_set patterns w k :
  k ∈ file_set patterns w ↔
    ∃ pat s, pat ∈ patterns ∧ s ∈ glob true pat w ∧ k = key (cwd w) s.
Proof.
  unfold file_set. rewrite elem_of_remove_dups, list_elem_of_bind.
  split.
  - intros (pat & Hk & Hpat). apply list_elem_of_fmap in Hk as (s & -> & Hs).
    eauto.
  - intros (pat & s & Hpat & Hs & ->). exists pat. split; [|done].
    apply list_elem_of_fmap. eauto.
Qed.

Lemma elem_of_file_set_dom patterns w w' k :
  cwd w = cwd w' → dom (fs w) = dom (fs w') →
  k ∈ file_set patterns w → k ∈ file_set patterns w'.
Proof.
  intros Hcwd Hdom. rewrite !elem_of_file_set.
  intros (pat & s & Hpat & Hs & ->). exists pat, s. rewrite <- Hcwd.
  split_and!; [done| |done]. by apply (elem_of_glob_dom _ _ w).
Qed.

Lemma NoDup_file_set patterns w : NoDup (file_set patterns w).
Proof. apply NoDup_remove_dups. Qed.

End GlobFacts.

(** * Facts about [search_replace_in_files] *)

Section SearchReplaceFacts.

Implicit Types (m : gmap path node) (w : world) (k : path) (old new : bytes).

Lemma search_replace_file_scan old k w :
  search_replace_file old None k w = (Ok (file_count old (fs w) k), w).
Proof.
  unfold search_replace_file, file_count, bind, gets, ret.
  destruct (fs w !! k) as [[content t|]|]; try done.
  by case_bool_decide.
Qed.

Lemma search_replace_file_replace old new k w :
  search_replace_file old (Some new) k w
  = (Ok (file_count old (fs w) k), patch_file old new w k).
Proof.
  unfold search_replace_file, file_count, patch_file, bind, gets, ret.
  destruct (fs w !! k) as [[content t|]|]; try done.
  by case_bool_decide.
Qed.

(** Patching one path keeps everything but the file system and the
    clock, and keeps the set of names. *)
Lemma patch_file_frame old new w k :
  cwd (patch_file old new w k) = cwd w ∧
  platform (patch_file old new w k) = platform w ∧
  trace (patch_file old new w k) = trace w ∧
  dom (fs (patch_file old new w k)) = dom (fs w).
Proof.
  unfold patch_file.
  destruct (fs w !! k) as [[content t|]|] eqn:Hk; try done.
  case_bool_decide; [|done]. simpl. split_and!; try done.
  by apply dom_insert_lookup_L.
Qed.

Lemma patch_file_lookup_ne old new w k k' :
  k ≠ k' → fs (patch_file old new w k) !! k' = fs w !! k'.
Proof.
  intros Hne. unfold patch_file.
  destruct (fs w !! k) as [[content t|]|]; try done.
  case_bool_decide; [|done]. simpl. by rewrite lookup_insert_ne.
Qed.

Lemma patch_file_lookup old new w k :
  fs (patch_file old new w k) !! k =
    match fs w !! k with
    | Some (File content t) =>
        if bool_decide (0 < count old content)
        then Some (File (replace old new content) (clock w))
        else Some (File content t)
    | e => e
    end.
Proof.
  unfold patch_file.
  destruct (fs w !! k) as [[content t|]|] eqn:Hk; try done.
  case_bool_decide; [|done]. simpl. by rewrite lookup_insert_eq.
Qed.

Lemma patch_all_frame old new files w :
  cwd (foldl (patch_file old new) w files) = cwd w ∧
  platform (foldl (patch_file old new) w files) = platform w ∧
  trace (foldl (patch_file old new) w files) = trace w ∧
  dom (fs (foldl (patch_file old new) w files)) = dom (fs w).
Proof.
  revert w. induction files as [|k files IH]; intros w; [done|]. simpl.
  destruct (IH (patch_file old new w k)) as (-> & -> & -> & ->).
  apply patch_file_frame.
Qed.

Lemma patch_all_lookup_notin old new files w k :
  k ∉ files → fs (foldl (patch_file old new) w files) !! k = fs w !! k.
Proof.
  revert w. induction files as [|k' files IH]; intros w Hk; [done|].
  apply not_elem_of_cons in Hk as [Hne Hk]. simpl.
  rewrite IH by done. by apply patch_file_lookup_ne.
Qed.

(** Each path of a duplicate-free file list is treated once, from its
    original content. *)
Lemma patch_all_lookup_in old new files w k :
  NoDup files → k ∈ files →
  ∃ t', fs (foldl (patch_file old new) w files) !! k =
    match fs w !! k with
    | Some (File content t) =>
        if bool_decide (0 < count old content)
        then Some (File (replace old new content) t')
        else Some (File content t)
    | e => e
    end.
Proof.
  revert w. induction files as [|k' files IH]; intros w Hnd Hk.
  { by apply elem_of_nil in Hk. }
  apply NoDup_cons in Hnd as [Hk' Hnd]. simpl.
  destruct (decide (k = k')) as [->|Hne].
  - exists (clock w). rewrite patch_all_lookup_notin by done.
    apply patch_file_lookup.
  - apply elem_of_cons in Hk as [?|Hk]; [done|].
    destruct (IH (patch_file old new w k') Hnd Hk) as [t' Ht'].
    exists t'. rewrite Ht'. by rewrite patch_file_lookup_ne.
Qed.

Lemma count_loop_scan old files total w :
  count_loop total files (search_replace_file old None) w
  = (Ok (total + sum_list (file_count old (fs w) <$> files)), w).
Proof.
  revert total. induction files as [|k files IH]; intros total; simpl.
  - unfold ret. do 2 f_equal. lia.
  - unfold bind at 1. rewrite search_replace_file_scan, IH.
    do 2 f_equal. symmetry. apply Nat.add_assoc.
Qed.

Lemma count_loop_replace old new files total w :
  NoDup files →
  count_loop total files (search_replace_file old (Some new)) w
  = (Ok (total + sum_list (file_count old (fs w) <$> files)),
     foldl (patch_file old new) w files).
Proof.
  revert total w. induction files as [|k files IH]; intros total w Hnd; simpl.
  - unfold ret. do 2 f_equal. lia.
  - apply NoDup_cons in Hnd as [Hk Hnd].
    unfold bind at 1. rewrite search_replace_file_replace, IH by done.
    do 2 f_equal. rewrite <- Nat.add_assoc. simpl. do 3 f_equal.
    apply list_fmap_ext. intros i k' Hk'. unfold file_count.
    rewrite patch_file_lookup_ne; [done|].
    intros ->. apply Hk. by eapply list_elem_of_lookup_2.
Qed.

(** The two modes of a pass in closed form. *)
Lemma search_replace_scan patterns old w :
  search_replace_in_files patterns old None w
  = (Ok (sum_list (file_count old (fs w) <$> file_set patterns w)), w).
Proof.
  unfold search_replace_in_files, bind, gets.
  by rewrite count_loop_scan.
Qed.

Lemma search_replace_replace patterns old new w :
  search_replace_in_files patterns old (Some new) w
  = (Ok (sum_list (file_count old (fs w) <$> file_set patterns w)),
     foldl (patch_file old new) w (file_set patterns w)).
Proof.
  unfold search_replace_in_files, bind, gets.
  by rewrite count_loop_replace by apply NoDup_file_set.
Qed.

End SearchReplaceFacts.

(** * The path search-replace engine *)

Section SearchReplaceEngine.

Implicit Types (w : world) (k : path) (old new content : bytes).

Lemma patch_file_clean old new w k :
  file_count old (fs w) k = 0 → patch_file old new w k = w.
Proof.
  unfold file_count, patch_file.
  destruct (fs w !! k) as [[content t|]|]; try done.
  intros ->. by rewrite bool_decide_false by lia.
Qed.

Lemma patch_all_clean old new files w :
  Forall (λ k, file_count old (fs w) k = 0) files →
  foldl (patch_file old new) w files = w
  ∧ sum_list (file_count old (fs w) <$> files) = 0.
Proof.
  induction 1 as [|k files Hk _ [IHw IHs]]; [done|]. simpl.
  rewrite patch_file_clean, Hk by done. split; [done|].
  exact IHs.
Qed.

(** C1 (amended).  A file of the expanded file set that contains an
    occurrence of [old] holds, after a replace-mode pass,
    [replace old new] of its content: the content is cut at the
    occurrences found by the left-to-right scan, each of them is replaced
    by [new], and the pieces in between are kept byte for byte and contain
    no further occurrence.  The new content is free of [old] when [old]
    and [new] are non-empty and have no byte in common. *)
Theorem search_replace_rewrites patterns old new w k content t :
  k ∈ file_set patterns w →
  fs w !! k = Some (File content t) →
  occurs old content →
  ∃ n w' t' segs,
    search_replace_in_files patterns old (Some new) w = (Ok n, w') ∧
    fs w' !! k = Some (File (replace old new content) t') ∧
    content = join_bytes old segs ∧
    replace old new content = join_bytes new segs ∧
    length segs = S (count old content) ∧
    (old ≠ [] → Forall (λ seg, ¬ occurs old seg) segs) ∧
    (old ≠ [] → new ≠ [] → (∀ x, x ∈ new → x ∉ old) →
     ¬ occurs old (replace old new content)).
Proof.
  intros Hk Hfile Hocc.
  destruct (replace_segments old new content)
    as (segs & Hsplit & Hjoin & Hlen & Hfree).
  destruct (patch_all_lookup_in old new (file_set patterns w) w k
              (NoDup_file_set _ _) Hk) as [t' Hlook].
  rewrite Hfile in Hlook.
  rewrite bool_decide_true in Hlook by (by apply count_pos_occurs).
  eexists _, _, t', segs. rewrite search_replace_replace.
  split_and!; try done.
  intros Hold Hnew Hdisj. by apply replace_clears.
Qed.

(** C2.  A file of the expanded file set without any occurrence of [old]
    is the same entry after a replace-mode pass: same bytes, and the same
    modification time, since it is not written. *)
Theorem search_replace_skips patterns old new w k content t :
  k ∈ file_set patterns w →
  fs w !! k = Some (File content t) →
  ¬ occurs old content →
  ∃ n w',
    search_replace_in_files patterns old (Some new) w = (Ok n, w') ∧
    fs w' !! k = Some (File content t).
Proof.
  intros Hk Hfile Hocc. rewrite search_replace_replace. eexists _, _.
  split; [done|].
  destruct (patch_all_lookup_in old new (file_set patterns w) w k
              (NoDup_file_set _ _) Hk) as [t' Hlook].
  rewrite Hfile in Hlook.
  by rewrite bool_decide_false in Hlook
    by (apply count_zero_occurs in Hocc; lia).
Qed.

(** C3 (amended).  When [old] and [new] are non-empty and have no byte in
    common, a second replace-mode pass with the same arguments finds no
    occurrence and leaves the world as the first pass left it. *)
Theorem search_replace_idempotent patterns old new w :
  old ≠ [] → new ≠ [] → (∀ x, x ∈ new → x ∉ old) →
  ∃ n w',
    search_replace_in_files patterns old (Some new) w = (Ok n, w') ∧
    search_replace_in_files patterns old (Some new) w' = (Ok 0, w').
Proof.
  intros Hold Hnew Hdisj. rewrite search_replace_replace.
  eexists _, _. split; [done|].
  set (w1 := foldl (patch_file old new) w (file_set patterns w)).
  rewrite search_replace_replace.
  destruct (patch_all_frame old new (file_set patterns w) w)
    as (Hcwd & _ & _ & Hdom). fold w1 in Hcwd, Hdom.
  destruct (patch_all_clean old new (file_set patterns w1) w1) as [-> ->];
    [|done].
  apply Forall_forall. intros k Hk.
  apply (elem_of_file_set_dom _ w1 w) in Hk; [|done..].
  destruct (patch_all_lookup_in old new (file_set patterns w) w k
              (NoDup_file_set _ _) Hk) as [t' Hlook].
  fold w1 in Hlook. unfold file_count. rewrite Hlook.
  destruct (fs w !! k) as [[content t|]|]; try done.
  case_bool_decide as Hpos.
  - by apply replace_replace.
  - lia.
Qed.

(** C4 (amended).  A scan-only pass returns the world it was given, and
    its result is the sum, over the duplicate-free expanded file set, of
    the occurrences the scan finds in each file.  For one file that
    number is positive exactly when [old] occurs; it is the largest
    number of occurrences of [old] at which the content can be cut, that
    is the largest number of occurrences that do not overlap; it never
    exceeds the number of positions at which [old] starts, and it equals
    that number when [old] cannot overlap itself. *)
Theorem scan_only_counts patterns old w :
  search_replace_in_files patterns old None w
  = (Ok (sum_list (file_count old (fs w) <$> file_set patterns w)), w)
  ∧ NoDup (file_set patterns w)
  ∧ ∀ k content t, fs w !! k = Some (File content t) →
      (0 < file_count old (fs w) k ↔ occurs old content) ∧
      file_count old (fs w) k ≤ occurrences old content ∧
      (overlap_free old → file_count old (fs w) k = occurrences old content) ∧
      (old ≠ [] →
       (∃ segs, content = join_bytes old segs ∧
                length segs = S (file_count old (fs w) k)) ∧
       ∀ segs, content = join_bytes old segs →
               length segs ≤ S (file_count old (fs w) k)).
Proof.
  split_and!.
  - apply search_replace_scan.
  - apply NoDup_file_set.
  - intros k content t Hk. unfold file_count. rewrite Hk.
    split_and!.
    + apply count_pos_occurs.
    + apply count_le_occurrences.
    + apply count_occurrences.
    + intros Hne. split.
      * destruct (replace_segments old [] content)
          as (segs & Hcut & _ & Hlen & _).
        by exists segs.
      * intros segs. by apply count_max_cut.
Qed.

End SearchReplaceEngine.

(** * The environment builder *)

Section BuilderFacts.

Variable tool : list string → gmap path node → option (gmap path node).
Variable fmt_path : string → string.

Implicit Types (w : world) (k : path).

Lemma commands_app tr tr' : commands (tr ++ tr') = commands tr ++ commands tr'.
Proof. apply omap_app. Qed.

Lemma run_ok cmd w m' :
  tool cmd (fs w) = Some m' →
  run tool cmd w = (Ok tt, with_fs m' (emit (EvRun cmd) w)).
Proof. intros H. unfold run, bind, modify, gets. simpl. by rewrite H. Qed.

Lemma run_fail cmd w :
  tool cmd (fs w) = None →
  run tool cmd w = (Raise (CalledProcessError cmd), emit (EvRun cmd) w).
Proof. intros H. unfold run, bind, modify, gets. simpl. by rewrite H. Qed.

Lemma run_inv cmd w r w' :
  run tool cmd w = (r, w') →
  trace w' = trace w ++ [EvRun cmd] ∧
  (r = Ok tt → ∃ m', tool cmd (fs w) = Some m').
Proof.
  destruct (tool cmd (fs w)) as [m'|] eqn:Ht.
  - rewrite (run_ok _ _ m') by done. intros [= <- <-]. eauto.
  - rewrite run_fail by done. intros [= <- <-]. split; [done|]. done.
Qed.

(** The builder is its three phases in sequence. *)
Lemma build_python_env_phases package_list target_dir python_version force w :
  build_python_env tool fmt_path package_list target_dir python_version force w
  = (let* located :=
       locate_install_root tool target_dir python_version force in
     install_packages tool fmt_path package_list located.1 located.2 ;;
     relocate_and_report fmt_path package_list target_dir located.1 located.2) w.
Proof.
  unfold build_python_env, locate_install_root, install_packages,
    relocate_and_report, bind, resolve, exists_, gets, raise, ret.
  simpl.
  destruct (bool_decide _ && negb force); [done|].
  destruct (run tool _ _) as [[[]|e] w1]; [|done].
  destruct (glob false _ w1) as [|first rest]; [done|]. simpl.
  destruct (negb (bool_decide _)); [done|].
  destruct (run tool _ _) as [[[]|e] w2]; [|done].
  destruct (clean_pycache_dirs fmt_path _ w2) as [[[]|e] w3]; [|done].
  destruct (bool_decide (platform w3 = "darwin")).
  - by destruct (update_macos_dylib_ids tool _ w3) as [[[]|e] w4].
  - done.
Qed.

(** The relocation step in closed form: the replace pass over the two
    text patterns, then the scan over the whole tree and its verdict. *)
Lemma replace_absolute_paths_eval python_root old_path_str new_path_str w :
  let old := encode old_path_str in
  let text_glob :=
    [python_root +:+ "/bin/*"; python_root +:+ "/lib/**/*.py"] in
  let w0 := emit (EvInfo ("Replacing all absolute paths in: "
                          +:+ repr_list text_glob +:+ ": `" +:+ old_path_str
                          +:+ "` -> `" +:+ new_path_str +:+ "`"))
                 (emit (EvInfo EmptyString) w) in
  let wp := foldl (patch_file old (encode new_path_str)) w0
                  (file_set text_glob w0) in
  let ws := emit (EvInfo "Sanity checking if any absolute paths remain...")
                 (emit (EvInfo EmptyString) wp) in
  let n := sum_list (file_count old (fs ws)
                       <$> file_set [python_root +:+ "/**/*"] ws) in
  replace_absolute_paths python_root old_path_str new_path_str w
  = (Ok tt, emit (verdict old_path_str n) ws).
Proof.
  intros old text_glob w0 wp ws n.
  unfold replace_absolute_paths, info, warn.
  unfold bind at 1. unfold modify at 1. fold text_glob.
  unfold bind at 1. unfold modify at 1. fold w0.
  unfold bind at 1. fold old. rewrite search_replace_replace. fold wp.
  unfold bind at 1. unfold modify at 1.
  unfold bind at 1. unfold modify at 1. fold ws.
  unfold bind at 1. rewrite search_replace_scan. fold n.
  unfold verdict, modify. by case_bool_decide.
Qed.

(** C5.  When the target directory exists and [force] is off, the builder
    raises [FileExistsError] and hands back the world it was given: the
    file system is as before and the trace has no new entry, so no
    external command has been run. *)
Theorem build_refuses_existing_target package_list target_dir python_version w :
  is_Some (fs w !! key (cwd w) target_dir) →
  ∃ msg,
    build_python_env tool fmt_path package_list target_dir python_version
      false w
    = (Raise (FileExistsError msg), w).
Proof.
  intros Hpresent. eexists.
  unfold build_python_env, bind, resolve, exists_, gets, raise.
  by rewrite bool_decide_true.
Qed.

(** C6.  Once the interpreter has been installed, an empty expansion of
    the install-root pattern makes the builder raise [FileNotFoundError]
    with the interpreter installation as the only command run so far; a
    non-empty expansion makes its first element the Install Root with
    which the rest of the build runs. *)
Theorem build_locates_install_root package_list target_dir python_version
    force w m1 :
  let target_absolute := path_str true (key (cwd w) target_dir) in
  let cmd := install_python_cmd target_absolute python_version in
  let w1 := with_fs m1 (emit (EvRun cmd) w) in
  let build :=
    build_python_env tool fmt_path package_list target_dir python_version
      force in
  (is_Some (fs w !! key (cwd w) target_dir) → force = true) →
  tool cmd (fs w) = Some m1 →
  match glob false
          (os_path_join target_dir ("cpython-" +:+ python_version +:+ ".*"))
          w1 with
  | [] =>
      (∃ msg, build w = (Raise (FileNotFoundError msg), w1)) ∧
      commands (trace w1) = commands (trace w) ++ [cmd]
  | first :: _ =>
      locate_install_root tool target_dir python_version force w
      = (Ok (target_absolute, Path first), w1) ∧
      build w
      = (install_packages tool fmt_path package_list target_absolute
           (Path first) ;;
         relocate_and_report fmt_path package_list target_dir target_absolute
           (Path first)) w1
  end.
Proof.
  intros target_absolute cmd w1 build Hforce Htool.
  assert (locate_install_root tool target_dir python_version force w
          = match glob false (os_path_join target_dir
                    ("cpython-" +:+ python_version +:+ ".*")) w1 with
            | [] => (Raise (FileNotFoundError
                       ("Failed to find venv root at: " +:+
                        os_path_join target_dir
                          ("cpython-" +:+ python_version +:+ ".*"))), w1)
            | first :: _ => (Ok (target_absolute, Path first), w1)
            end) as Hlocate.
  { unfold locate_install_root, bind at 1, resolve, gets at 1.
    unfold bind at 1, exists_, gets at 1.
    replace (bool_decide _ && negb force) with false; cycle 1.
    { case_bool_decide as Hp; [|done]. by rewrite Hforce. }
    unfold bind at 1. fold target_absolute.
    change (run tool _ w) with (run tool cmd w).
    rewrite (run_ok _ _ m1) by done. fold w1.
    unfold bind, gets. by destruct (glob false _ w1). }
  subst build.
  destruct (glob false _ w1) as [|first rest].
  - split; [|subst w1; simpl; by rewrite commands_app].
    rewrite build_python_env_phases. unfold bind at 1. rewrite Hlocate.
    by eexists.
  - split; [done|].
    rewrite build_python_env_phases. unfold bind at 1. by rewrite Hlocate.
Qed.

(** C7.  A run that reaches the relocation step performs the replace
    pass, then a scan-only pass for the old absolute path over the whole
    tree below the Install Root, reports a warning when the scan counts a
    match and a confirmation when it counts none, and in both cases
    returns normally with the success report as its last message. *)
Theorem leftover_paths_only_warn package_list target_dir python_version force
    w target_absolute install_root w1 w2 :
  let old := encode target_absolute in
  let text_glob :=
    [install_root +:+ "/bin/*"; install_root +:+ "/lib/**/*.py"] in
  locate_install_root tool target_dir python_version force w
    = (Ok (target_absolute, install_root), w1) →
  install_packages tool fmt_path package_list target_absolute install_root w1
    = (Ok tt, w2) →
  ∃ w0 n0 wp ws n msg,
    fs w0 = fs w2 ∧ cwd w0 = cwd w2 ∧
    trace w0 = trace w2 ++ [EvInfo EmptyString; EvInfo msg] ∧
    search_replace_in_files text_glob old (Some (encode target_dir)) w0
      = (Ok n0, wp) ∧
    ws = emit (EvInfo "Sanity checking if any absolute paths remain...")
           (emit (EvInfo EmptyString) wp) ∧
    search_replace_in_files [install_root +:+ "/**/*"] old None ws
      = (Ok n, ws) ∧
    build_python_env tool fmt_path package_list target_dir python_version
      force w
    = (Ok tt,
       emit (EvSuccess ("Created standalone Python environment for packages "
                        +:+ repr_list package_list +:+ " at: "
                        +:+ fmt_path target_dir))
         (emit (verdict target_absolute n) ws)) ∧
    (n ≠ 0 → ∃ text, verdict target_absolute n = EvWarn text) ∧
    (n = 0 → verdict target_absolute n
             = EvInfo "Great! No absolute paths found in the installed files.").
Proof.
  intros old text_glob Hlocate Hinstall.
  pose proof (replace_absolute_paths_eval install_root target_absolute
                target_dir w2) as Heval.
  simpl in Heval. fold old text_glob in Heval.
  eexists (emit (EvInfo _) (emit (EvInfo EmptyString) w2)), _, _, _, _, _.
  split_and!.
  - done.
  - done.
  - simpl. by rewrite <- (assoc_L (++)).
  - apply search_replace_replace.
  - done.
  - apply search_replace_scan.
  - rewrite build_python_env_phases. unfold bind at 1. rewrite Hlocate.
    unfold bind at 1. simpl. rewrite Hinstall.
    unfold relocate_and_report, bind. rewrite Heval. done.
  - intros Hn. unfold verdict. rewrite bool_decide_true by done. by eexists.
  - intros Hn. unfold verdict. by rewrite bool_decide_false by lia.
Qed.

(** The loop of [update_macos_dylib_ids]: the libraries are treated in
    order, one command each; a failure stops the loop. *)
Lemma dylib_loop python_root dylib_paths w :
  ∃ r w' treated rels,
    for_each dylib_paths (λ dylib_path,
      info ("Found macos dylib, will update its id to remove any absolute paths: "
            +:+ dylib_path) ;;
      match relative_to dylib_path python_root with
      | None => raise (ValueError dylib_path)
      | Some rel_path => run tool (install_name_cmd dylib_path rel_path)
      end) w = (r, w') ∧
    treated `prefix_of` dylib_paths ∧
    Forall2 (λ p rel, relative_to p python_root = Some rel) treated rels ∧
    commands (trace w')
    = commands (trace w) ++ zip_with install_name_cmd treated rels ∧
    (r = Ok tt → treated = dylib_paths).
Proof.
  revert w. induction dylib_paths as [|p paths IH]; intros w.
  { exists (Ok tt), w, [], []. split_and!; try done.
    simpl. by rewrite (right_id_L [] (++)). }
  cbn [for_each]. unfold bind at 1, bind at 1, info, modify at 1.
  set (wi := emit (EvInfo _) w).
  assert (commands (trace wi) = commands (trace w)) as Hwi.
  { subst wi. simpl. rewrite commands_app. simpl.
    by rewrite (right_id_L [] (++)). }
  clearbody wi.
  destruct (relative_to p python_root) as [rel|] eqn:Hrel.
  2:{ exists (Raise (ValueError p)), wi, [], []. split_and!; try done.
      - apply prefix_nil.
      - simpl. by rewrite (right_id_L [] (++)). }
  destruct (tool (install_name_cmd p rel) (fs wi)) as [m'|] eqn:Htool.
  - rewrite (run_ok _ _ m') by done.
    destruct (IH (with_fs m' (emit (EvRun (install_name_cmd p rel)) wi)))
      as (r & w' & treated & rels & Hrun & Hpre & Hrels & Hcmds & Hall).
    exists r, w', (p :: treated), (rel :: rels). split_and!.
    + done.
    + by apply prefix_cons.
    + by constructor.
    + rewrite Hcmds. simpl. rewrite commands_app, Hwi. simpl.
      by rewrite <- (assoc_L (++)).
    + intros Hr. by rewrite Hall.
  - rewrite run_fail by done.
    exists (Raise (CalledProcessError (install_name_cmd p rel))),
      (emit (EvRun (install_name_cmd p rel)) wi), [p], [rel].
    split_and!; try done.
    + apply prefix_cons, prefix_nil.
    + by repeat constructor.
    + simpl. by rewrite commands_app, Hwi.
Qed.



(** C10.  The relocation step rewrites nothing outside the expansion of
    [bin/*] and [lib/**/*.py] below the Install Root: any other entry is
    found unchanged afterwards.  The verification scan ranges over the
    expansion of [**/*], and the occurrences in such an entry are part of
    the count it reports. *)
Theorem relocation_leaves_other_files python_root old_path_str new_path_str
    w k :
  let old := encode old_path_str in
  k ∉ file_set [python_root +:+ "/bin/*"; python_root +:+ "/lib/**/*.py"] w →
  ∃ n msg w',
    replace_absolute_paths python_root old_path_str new_path_str w
      = (Ok tt, w') ∧
    fs w' !! k = fs w !! k ∧
    trace w' = trace w ++
      [EvInfo EmptyString; EvInfo msg; EvInfo EmptyString;
       EvInfo "Sanity checking if any absolute paths remain...";
       verdict old_path_str n] ∧
    n = sum_list (file_count old (fs w')
                    <$> file_set [python_root +:+ "/**/*"] w') ∧
    (k ∈ file_set [python_root +:+ "/**/*"] w → file_count old (fs w) k ≤ n).
Proof.
  intros old Hk.
  pose proof (replace_absolute_paths_eval python_root old_path_str
                new_path_str w) as Heval.
  simpl in Heval. fold old in Heval.
  set (text_glob :=
    [python_root +:+ "/bin/*"; python_root +:+ "/lib/**/*.py"]) in *.
  set (w0 := emit (EvInfo _) (emit (EvInfo EmptyString) w)) in Heval.
  set (wp := foldl (patch_file old (encode new_path_str)) w0
               (file_set text_glob w0)) in Heval.
  assert (fs wp !! k = fs w !! k) as Hsame.
  { unfold wp. by rewrite patch_all_lookup_notin. }
  destruct (patch_all_frame old (encode new_path_str)
              (file_set text_glob w0) w0) as (Hcwd & _ & Htrace & Hdom).
  fold wp in Hcwd, Htrace, Hdom.
  eexists _, _, _. split; [exact Heval|].
  split_and!.
  - done.
  - simpl. rewrite Htrace. simpl. by rewrite <- !(assoc_L (++)).
  - done.
  - intros Hin.
    apply (elem_of_file_set_dom _ w
             (emit (EvInfo "Sanity checking if any absolute paths remain...")
                (emit (EvInfo EmptyString) wp))) in Hin; [|done..].
    etrans; [|apply (sum_list_with_in (file_count old (fs w) k) id)].
    + done.
    + apply list_elem_of_fmap. exists k. split; [|done].
      unfold file_count. simpl. by rewrite Hsame.
Qed.

End BuilderFacts.

(** * Cache cleanup *)

Section CleanupFacts.

Variable fmt_path : string → string.

Implicit Types (m : gmap path node) (w : world) (k top : path).

(** A goal about an entry may be settled by cases on any proposition. *)
Lemma entry_cases (P : Prop) (a b : option node) :
  (P → a = b) → (¬ P → a = b) → a = b.
Proof.
  intros Hyes Hno. destruct (decide (a = b)) as [|Hne]; [done|].
  exfalso. apply Hne, Hno. intros HP. by apply Hne, Hyes.
Qed.

Lemma child_name_spec (d k : path) (n : string) :
  child_name d k = Some n ↔ k = d ++ [n].
Proof.
  unfold child_name. split.
  - case_decide as H; [|done]. destruct H as [Hk Hlen]. intros Hlast.
    assert (length (drop (length d) k) = 1) as Hone
      by (rewrite length_drop; lia).
    destruct (drop (length d) k) as [|x [|? ?]]; try done.
    rewrite Hk, last_snoc in Hlast. congruence.
  - intros ->. rewrite decide_True.
    + apply last_snoc.
    + rewrite drop_app_length, length_app. simpl. split; [done|lia].
Qed.

Lemma scandir_Some m (d : path) dirs files :
  scandir m d = Some (dirs, files) →
  m !! d = Some Dir ∧ ∀ n, n ∈ dirs ↔ m !! (d ++ [n]) = Some Dir.
Proof.
  unfold scandir. destruct (m !! d) as [[|]|] eqn:Hd; try done.
  intros [= <- <-]. split; [done|]. intros n.
  rewrite list_elem_of_omap. split.
  - intros ([k nd] & Hin & Hf). apply elem_of_map_to_list in Hin.
    simpl in Hf. destruct nd; simpl in Hf; [done|].
    by apply child_name_spec in Hf as ->.
  - intros Hn. exists (d ++ [n], Dir). split.
    + by apply elem_of_map_to_list.
    + simpl. by apply child_name_spec.
Qed.

Lemma scandir_None m (d : path) : scandir m d = None → m !! d ≠ Some Dir.
Proof. unfold scandir. by destruct (m !! d) as [[|]|]. Qed.

Lemma wf_fs_prefix m (p q : path) :
  wf_fs m → is_Some (m !! (p ++ q)) → q ≠ [] → m !! p = Some Dir.
Proof.
  intros Hwf. induction q as [|n q IH] using rev_ind; [done|].
  intros Hsome _. rewrite (assoc_L (++)) in Hsome. apply Hwf in Hsome.
  destruct q as [|n' q].
  - by rewrite (right_id_L [] (++)) in Hsome.
  - apply IH; [by eexists|done].
Qed.

Lemma wf_fs_rmtree m (p : path) :
  wf_fs m → wf_fs (filter (λ e, ¬ p `prefix_of` e.1) m).
Proof.
  intros Hwf k n [v Hv]. apply map_lookup_filter_Some in Hv as [Hv Hnp].
  simpl in Hnp. apply map_lookup_filter_Some. split.
  - apply (Hwf k n). by eexists.
  - simpl. intros Hp. apply Hnp. by apply prefix_app_r.
Qed.

Lemma fs_depth_bound m k : is_Some (m !! k) → length k ≤ fs_depth m.
Proof.
  unfold fs_depth. revert k.
  apply (map_fold_weak_ind (λ r m, ∀ k, is_Some (m !! k) → length k ≤ r)).
  - intros k [v Hv]. by rewrite lookup_empty in Hv.
  - intros i x m' r Hi IH k Hk.
    destruct (decide (i = k)) as [->|Hne]; [lia|].
    rewrite lookup_insert_ne in Hk by done. apply IH in Hk. lia.
Qed.

Lemma in_pycache_mono m m' top k :
  (∀ k v, m' !! k = Some v → m !! k = Some v) →
  in_pycache m' top k → in_pycache m top k.
Proof. intros Hsub (d & Hpre & Hdir). exists d. auto. Qed.

Lemma in_pycache_below m top (q k : path) :
  in_pycache m top q → q `prefix_of` k → in_pycache m top k.
Proof. intros (d & Hpre & Hdir) Hqk. exists d. split; [by etrans|done]. Qed.

Lemma in_pycache_up m top k (n : string) :
  in_pycache m top k → in_pycache m top (k ++ [n]).
Proof.
  intros H. apply (in_pycache_below _ _ k); [done|]. by apply prefix_app_r.
Qed.

Lemma in_pycache_child m top (n : string) k :
  in_pycache m (top ++ [n]) k → in_pycache m top k.
Proof.
  intros (d & Hpre & Hdir). exists (n :: d).
  rewrite <- (assoc_L (++)) in Hpre, Hdir. done.
Qed.

Lemma pruned_wf (P : path → Prop) m m' :
  (∀ k n, P k → P (k ++ [n])) → wf_fs m → pruned P m m' → wf_fs m'.
Proof.
  intros Hup Hwf (Hsub & Hgone & Hkept) k n [v Hv].
  assert (m !! k = Some Dir) as Hk.
  { apply (Hwf k n). exists v. by apply Hsub. }
  rewrite <- Hk. apply (entry_cases (P k)); [|apply Hkept].
  intros HP. apply (Hup k n), Hgone in HP. congruence.
Qed.

Lemma pruned_depth (P : path → Prop) m m' (bound : nat) :
  pruned P m m' →
  (∀ k, is_Some (m !! k) → length k < bound) →
  ∀ k, is_Some (m' !! k) → length k < bound.
Proof. intros (Hsub & _) Hb k [v Hv]. apply Hb. exists v. auto. Qed.

(** What the loop body of [clean_pycache_dirs] does at one directory. *)
Lemma pycache_body_spec top dirnames filenames w :
  scandir (fs w) top = Some (dirnames, filenames) →
  ∃ wb,
    pycache_body fmt_path top dirnames filenames w = (Ok tt, wb) ∧
    pruned (λ k, (top ++ ["__pycache__"]) `prefix_of` k
                 ∧ fs w !! (top ++ ["__pycache__"]) = Some Dir)
           (fs w) (fs wb).
Proof.
  intros [Htop Hdirs]%scandir_Some. unfold pycache_body.
  case_bool_decide as Hin.
  - apply Hdirs in Hin. eexists. split; [done|]. simpl. split_and!.
    + intros k v Hv. by apply map_lookup_filter_Some in Hv as [Hv _].
    + intros k [Hpre _]. apply map_lookup_filter_None. right.
      intros v _ Hn. by apply Hn.
    + intros k Hk. destruct (fs w !! k) as [v|] eqn:Hv.
      * apply map_lookup_filter_Some. split; [done|]. simpl. tauto.
      * apply map_lookup_filter_None. by left.
  - exists w. split; [done|]. split_and!; [done| |done].
    intros k [_ Hdir]. by apply Hdirs in Hdir.
Qed.

Lemma wf_fs_check_sound m : wf_fs_check m = true → wf_fs m.
Proof.
  unfold wf_fs_check. intros Hcheck%bool_decide_eq_true k n [v Hv].
  destruct (Hcheck _ _ Hv) as [Hnil|Hdir].
  - by destruct k.
  - by rewrite removelast_last in Hdir.
Qed.

(** The descent of the walk into the sub-directories [names] of [top],
    given what the walk does from any directory one level further down. *)
Lemma walk_children depth top (names : list string) w :
  (∀ top' w',
     wf_fs (fs w') →
     (∀ k, is_Some (fs w' !! k) → length k < length top' + depth) →
     ∃ w'', os_walk depth (pycache_body fmt_path) top' w' = (Ok tt, w'') ∧
            pruned (in_pycache (fs w') top') (fs w') (fs w'')) →
  wf_fs (fs w) →
  (∀ k, is_Some (fs w !! k) → length k < S (length top) + depth) →
  ∃ w',
    for_each names
      (λ name, os_walk depth (pycache_body fmt_path) (top ++ [name])) w
    = (Ok tt, w') ∧
    pruned (λ k, ∃ n, n ∈ names ∧ in_pycache (fs w) (top ++ [n]) k)
           (fs w) (fs w').
Proof.
  intros Hwalk. revert w.
  induction names as [|n names IH]; intros w Hwf Hdepth.
  { exists w. split; [done|]. split_and!; [done| |done].
    intros k (n & Hn & _). by apply elem_of_nil in Hn. }
  destruct (Hwalk (top ++ [n]) w Hwf) as (w1 & Hrun1 & Hpr1).
  { intros k Hk. apply Hdepth in Hk. rewrite length_app. simpl. lia. }
  assert (wf_fs (fs w1)) as Hwf1.
  { apply (pruned_wf _ _ _ (in_pycache_up _ _) Hwf Hpr1). }
  destruct (IH w1 Hwf1 (pruned_depth _ _ _ _ Hpr1 Hdepth))
    as (w' & Hrun & Hpr).
  exists w'. split.
  { cbn [for_each]. unfold bind at 1. by rewrite Hrun1. }
  destruct Hpr1 as (Hsub1 & Hgone1 & Hkept1).
  destruct Hpr as (Hsub & Hgone & Hkept).
  split_and!.
  - intros k v Hv. auto.
  - intros k (n' & Hn' & Hin).
    apply (entry_cases (in_pycache (fs w) (top ++ [n]) k)).
    + intros Hfirst. apply Hgone1 in Hfirst.
      destruct (fs w' !! k) as [v|] eqn:Hv; [|done].
      apply Hsub in Hv. congruence.
    + intros Hfirst. apply Hgone. exists n'.
      apply elem_of_cons in Hn' as [->|Hn']; [done|]. split; [done|].
      destruct Hin as (d & Hpre & Hdir). exists d. split; [done|].
      rewrite Hkept1; [done|]. intros Hq. apply Hfirst.
      by apply (in_pycache_below _ _ _ _ Hq).
  - intros k Hk. rewrite Hkept, Hkept1; [done| |].
    + intros Hin. apply Hk. exists n. split; [apply list_elem_of_here|done].
    + intros (n' & Hn' & Hin). apply Hk. exists n'.
      split; [by apply list_elem_of_further|].
      by apply (in_pycache_mono _ (fs w1)).
Qed.

(** The walk of [clean_pycache_dirs], for any depth that covers the
    tree: every entry at or inside a directory named [__pycache__] below
    [top] is gone, every other entry is as it was. *)
Lemma os_walk_pycache depth top w :
  wf_fs (fs w) →
  (∀ k, is_Some (fs w !! k) → length k < length top + depth) →
  ∃ w', os_walk depth (pycache_body fmt_path) top w = (Ok tt, w') ∧
        pruned (in_pycache (fs w) top) (fs w) (fs w').
Proof.
  revert top w. induction depth as [|depth IH]; intros top w Hwf Hdepth.
  { exists w. split; [done|]. split_and!; [done| |done].
    intros k (d & _ & Hdir).
    assert (is_Some (fs w !! (top ++ d ++ ["__pycache__"]))) as Hk
      by (by eexists).
    apply Hdepth in Hk. rewrite !length_app in Hk. simpl in Hk. lia. }
  cbn [os_walk]. unfold bind at 1, gets.
  destruct (scandir (fs w) top) as [[dirnames filenames]|] eqn:Hscan.
  2:{ exists w. split; [done|]. split_and!; [done| |done].
      intros k (d & _ & Hdir). apply scandir_None in Hscan. destruct Hscan.
      apply (wf_fs_prefix _ _ (d ++ ["__pycache__"])); [done|by eexists|].
      by destruct d. }
  destruct (pycache_body_spec top dirnames filenames w Hscan)
    as (wb & Hbody & Hprb).
  apply scandir_Some in Hscan as [Htop Hdirs].
  assert (wf_fs (fs wb)) as Hwfb.
  { refine (pruned_wf _ _ _ _ Hwf Hprb).
    intros k n [Hpre Hdir]. split; [by apply prefix_app_r|done]. }
  destruct (walk_children depth top dirnames wb IH Hwfb) as (w' & Hrun & Hpr).
  { apply (pruned_depth _ _ _ _ Hprb). intros k Hk. apply Hdepth in Hk. lia. }
  exists w'. split.
  { unfold bind. by rewrite Hbody. }
  destruct Hprb as (Hsubb & Hgoneb & Hkeptb).
  destruct Hpr as (Hsub & Hgone & Hkept).
  split_and!.
  - intros k v Hv. auto.
  - intros k (d & Hpre & Hdir).
    apply (entry_cases ((top ++ ["__pycache__"]) `prefix_of` k
                        ∧ fs w !! (top ++ ["__pycache__"]) = Some Dir)).
    + intros Hcut. apply Hgoneb in Hcut.
      destruct (fs w' !! k) as [v|] eqn:Hv; [|done].
      apply Hsub in Hv. congruence.
    + intros Hcut. destruct d as [|n d]; [by destruct Hcut|].
      apply Hgone. exists n.
      assert (fs w !! (top ++ [n]) = Some Dir) as Hn.
      { apply (wf_fs_prefix _ _ (d ++ ["__pycache__"])); [done| |by destruct d].
        rewrite <- (assoc_L (++)). by eexists. }
      split; [by apply Hdirs|]. exists d.
      rewrite <- !(assoc_L (++)). split; [done|].
      rewrite Hkeptb; [done|]. intros [Hq Hd]. apply Hcut.
      split; [by etrans|done].
  - intros k Hk. rewrite Hkept, Hkeptb; [done| |].
    + intros [Hpre Hdir]. apply Hk. by exists [].
    + intros (n & _ & Hin). apply Hk.
      by apply (in_pycache_child _ _ n), (in_pycache_mono _ (fs wb)).
Qed.

(** C9.  Cache cleanup of a well-formed tree returns normally; afterwards
    every entry that was, or was inside, a directory named [__pycache__]
    below the root is gone, every other entry is what it was, and no
    directory named [__pycache__] is left below the root. *)
Theorem pycache_dirs_removed dir_path w :
  let top := key (cwd w) dir_path in
  wf_fs (fs w) →
  ∃ w',
    clean_pycache_dirs fmt_path dir_path w = (Ok tt, w') ∧
    (∀ k, in_pycache (fs w) top k → fs w' !! k = None) ∧
    (∀ k, ¬ in_pycache (fs w) top k → fs w' !! k = fs w !! k) ∧
    (∀ d, fs w' !! (top ++ d ++ ["__pycache__"]) ≠ Some Dir).
Proof.
  intros top Hwf.
  destruct (os_walk_pycache (S (fs_depth (fs w))) top w Hwf)
    as (w' & Hrun & Hsub & Hgone & Hkept).
  { intros k Hk%fs_depth_bound. lia. }
  exists w'. split_and!; [done..|].
  intros d Hdir. rewrite Hgone in Hdir; [done|].
  exists d. split; [done|]. by apply Hsub.
Qed.

End CleanupFacts.


(** * How a run ends *)

Section Outcomes.

Variable tool : list string → gmap path node → option (gmap path node).
Variable fmt_path : string → string.

Implicit Types (w : world) (evs : list event) (k top : path).

Ltac no_report :=
  repeat (apply Forall_cons; split; [intros Hrep; exact Hrep|]);
  try (by constructor).

Lemma commands_logs evs : Forall is_log evs → commands evs = [].
Proof.
  induction 1 as [|e evs He _ IH]; [done|]. by destruct e.
Qed.

Lemma info_is_log evs : Forall is_info evs → Forall is_log evs.
Proof. intros H. eapply Forall_impl; [done|]. by intros []. Qed.

Lemma logs_no_report evs :
  Forall is_log evs → Forall (λ e, ¬ is_report e) evs.
Proof.
  intros H. eapply Forall_impl; [done|]. by intros [] Hl Hr; simpl in *.
Qed.

(** ** Cache cleanup only logs and only deletes *)

Lemma removal_is_info m top evs :
  Forall (is_removal fmt_path m top) evs → Forall is_info evs.
Proof. intros H. eapply Forall_impl; [done|]. by intros e (d & -> & _). Qed.

Lemma tidied_refl top w : tidied fmt_path top w w.
Proof.
  split_and!; try done.
  exists []. split; [|constructor]. by rewrite (right_id_L [] (++)).
Qed.

Lemma tidied_trans top w w1 w2 :
  tidied fmt_path top w w1 → tidied fmt_path top w1 w2 →
  tidied fmt_path top w w2.
Proof.
  intros ((evs1 & Ht1 & Hi1) & Hc1 & Hp1 & Hk1 & Hsub1 & Hch1)
         ((evs2 & Ht2 & Hi2) & Hc2 & Hp2 & Hk2 & Hsub2 & Hch2).
  split_and!; try congruence.
  - exists (evs1 ++ evs2). split; [by rewrite Ht2, Ht1, (assoc_L (++))|].
    apply Forall_app. split; [done|].
    eapply Forall_impl; [done|]. intros e (d & -> & Hdir).
    exists d. auto.
  - auto.
  - intros k Hk. destruct (decide (fs w2 !! k = fs w1 !! k)) as [Heq|Hne].
    + apply Hch1. congruence.
    + by apply Hch2.
Qed.

Lemma tidied_child top (n : string) w w' :
  tidied fmt_path (top ++ [n]) w w' → tidied fmt_path top w w'.
Proof.
  intros ((evs & Ht & Hi) & Hc & Hp & Hk & Hsub & Hch).
  split_and!; try done.
  - exists evs. split; [done|]. eapply Forall_impl; [done|].
    intros e (d & -> & Hdir). exists (n :: d).
    by rewrite <- (assoc_L (++)) in Hdir |- *.
  - intros k Hne. destruct (Hch k Hne) as (d & rest & ->).
    exists (n :: d), rest. by rewrite <- (assoc_L (++)).
Qed.

Lemma pycache_body_tidied top dirnames filenames w :
  scandir (fs w) top = Some (dirnames, filenames) →
  ∃ wb, pycache_body fmt_path top dirnames filenames w = (Ok tt, wb) ∧
        tidied fmt_path top w wb.
Proof.
  intros [_ Hdirs]%scandir_Some.
  unfold pycache_body. case_bool_decide as Hin.
  2:{ exists w. split; [done|apply tidied_refl]. }
  apply Hdirs in Hin.
  eexists. split; [done|]. cbn. split_and!; try done.
  - eexists [_]. split; [done|]. constructor; [|constructor].
    by exists [].
  - intros k v Hv. by apply map_lookup_filter_Some in Hv as [Hv _].
  - intros k Hne.
    destruct (decide ((top ++ ["__pycache__"]) `prefix_of` k)) as [Hpre|Hpre].
    + destruct Hpre as [rest ->]. exists [], rest.
      by rewrite <- (assoc_L (++)).
    + destruct Hne. destruct (fs w !! k) as [v|] eqn:Hv.
      * by apply map_lookup_filter_Some.
      * apply map_lookup_filter_None. by left.
Qed.

Lemma os_walk_pycache_tidied depth top w :
  ∃ w', os_walk depth (pycache_body fmt_path) top w = (Ok tt, w') ∧
        tidied fmt_path top w w'.
Proof.
  revert top w. induction depth as [|depth IH]; intros top w.
  { exists w. split; [done|apply tidied_refl]. }
  cbn [os_walk]. unfold bind at 1, gets.
  destruct (scandir (fs w) top) as [[dirnames filenames]|] eqn:Hscan.
  2:{ exists w. split; [done|apply tidied_refl]. }
  destruct (pycache_body_tidied top dirnames filenames w Hscan)
    as (wb & Hbody & Htb).
  unfold bind. rewrite Hbody. clear Hbody Hscan.
  revert wb Htb. induction dirnames as [|n names IHn]; intros wb Htb.
  { by exists wb. }
  cbn [for_each]. unfold bind.
  destruct (IH (top ++ [n]) wb) as (w1 & -> & Ht1).
  apply IHn. eapply tidied_trans; [done|]. by apply (tidied_child _ n).
Qed.

Lemma clean_pycache_dirs_tidied dir_path w :
  ∃ w', clean_pycache_dirs fmt_path dir_path w = (Ok tt, w') ∧
        tidied fmt_path (key (cwd w) dir_path) w w'.
Proof. unfold clean_pycache_dirs, bind, gets. apply os_walk_pycache_tidied. Qed.

(** ** The relocation step only logs and only rewrites *)

Lemma replace_absolute_paths_logs python_root old_path_str new_path_str w :
  ∃ w' evs,
    replace_absolute_paths python_root old_path_str new_path_str w
      = (Ok tt, w') ∧
    trace w' = trace w ++ evs ∧ Forall is_log evs ∧
    cwd w' = cwd w ∧ platform w' = platform w ∧
    dom (fs w') = dom (fs w).
Proof.
  pose proof (replace_absolute_paths_eval python_root old_path_str
                new_path_str w) as Heval.
  cbv zeta in Heval.
  match type of Heval with
  | _ = (_, emit ?v (emit ?s (emit ?b (foldl ?f (emit ?m (emit ?a w)) ?l)))) =>
      destruct (patch_all_frame (encode old_path_str) (encode new_path_str)
                  l (emit m (emit a w))) as (Hcwd & Hplat & Htrace & Hdom);
      exists (emit v (emit s (emit b (foldl f (emit m (emit a w)) l)))),
        [a; m; b; s; v]
  end.
  split; [exact Heval|]. split_and!.
  - cbn [trace emit]. rewrite Htrace. cbn [trace emit].
    by rewrite <- !(assoc_L (++)).
  - do 4 (apply Forall_cons; split; [exact I|]).
    apply Forall_cons. split; [|by constructor].
    unfold verdict. by case_bool_decide.
  - cbn [cwd emit]. by rewrite Hcwd.
  - cbn [platform emit]. by rewrite Hplat.
  - cbn [fs emit]. by rewrite Hdom.
Qed.

(** ** Orderly computations *)

Lemma orderly_of_logs {A} (c : M A) :
  (∀ w, ∃ a w' evs,
     c w = (Ok a, w') ∧ trace w' = trace w ++ evs ∧ Forall is_log evs ∧
     cwd w' = cwd w ∧ platform w' = platform w) →
  orderly c.
Proof.
  intros Hc w r w' Hrun.
  destruct (Hc w) as (a & w1 & evs & Hrun1 & Ht & Hl & Hcwd & Hp).
  rewrite Hrun1 in Hrun. injection Hrun as <- <-.
  exists evs. split_and!; try done. by apply logs_no_report.
Qed.

Lemma orderly_gets {A} (f : world → A) : orderly (gets f).
Proof.
  apply orderly_of_logs. intros w. exists (f w), w, [].
  split_and!; try done. by rewrite (right_id_L [] (++)).
Qed.

Lemma orderly_ret {A} (a : A) : orderly (ret a).
Proof.
  apply orderly_of_logs. intros w. exists a, w, [].
  split_and!; try done. by rewrite (right_id_L [] (++)).
Qed.

Lemma orderly_info msg : orderly (info msg).
Proof.
  apply orderly_of_logs. intros w. eexists tt, _, [_].
  split_and!; try done. by repeat constructor.
Qed.

Lemma orderly_raise {A} (e : exn) :
  match e with
  | CalledProcessError _ | FileExistsError _ => False
  | _ => True
  end →
  orderly (@raise A e).
Proof.
  intros He w r w' [= <- <-]. exists []. split_and!; try done.
  - by rewrite (right_id_L [] (++)).
  - by destruct e.
Qed.

Lemma orderly_bind_at {A B} (c : M A) (k : A → M B) w :
  orderly_at c w → (∀ a, orderly (k a)) → orderly_at (bind c k) w.
Proof.
  intros Hc Hk r w'. unfold bind.
  destruct (c w) as [[a|e] w1] eqn:Hrun.
  - intros Hrest.
    destruct (Hc _ _ Hrun) as (evs1 & Ht1 & Hc1 & Hp1 & Hn1 & _).
    destruct (Hk a _ _ _ Hrest) as (evs2 & Ht2 & Hc2 & Hp2 & Hn2 & Hf2).
    exists (evs1 ++ evs2). split_and!.
    + by rewrite Ht2, Ht1, (assoc_L (++)).
    + congruence.
    + congruence.
    + by apply Forall_app.
    + destruct (failure r) as [[]|]; try done.
      rewrite last_app. by rewrite Hf2.
  - intros [= <- <-]. destruct (Hc _ _ Hrun) as (evs1 & ? & ? & ? & ? & Hf).
    by exists evs1.
Qed.

Lemma orderly_bind {A B} (c : M A) (k : A → M B) :
  orderly c → (∀ a, orderly (k a)) → orderly (bind c k).
Proof. intros Hc Hk w. by apply orderly_bind_at. Qed.

Lemma orderly_for_each {A} (xs : list A) (body : A → M unit) :
  (∀ x, orderly (body x)) → orderly (for_each xs body).
Proof.
  intros Hbody. induction xs as [|x xs IH]; simpl.
  - apply orderly_ret.
  - apply orderly_bind; [apply Hbody|done].
Qed.

Lemma orderly_run cmd : orderly (run tool cmd).
Proof.
  intros w r w' Hrun. exists [EvRun cmd].
  destruct (tool cmd (fs w)) as [m'|] eqn:Htool.
  - rewrite (run_ok _ _ _ m') in Hrun by done. injection Hrun as <- <-.
    split_and!; try done. no_report.
  - rewrite run_fail in Hrun by done. injection Hrun as <- <-.
    split_and!; try done. no_report.
Qed.

Lemma orderly_update_macos_dylib_ids python_root :
  orderly (update_macos_dylib_ids tool python_root).
Proof.
  unfold update_macos_dylib_ids.
  apply orderly_bind; [apply orderly_gets|]. intros dylib_paths.
  apply orderly_for_each. intros dylib_path.
  apply orderly_bind; [apply orderly_info|]. intros _.
  destruct (relative_to dylib_path python_root).
  - apply orderly_run.
  - by apply orderly_raise.
Qed.

Lemma orderly_clean_pycache_dirs dir_path :
  orderly (clean_pycache_dirs fmt_path dir_path).
Proof.
  apply orderly_of_logs. intros w.
  destruct (clean_pycache_dirs_tidied dir_path w)
    as (w' & Hrun & (evs & Ht & Hi) & Hc & Hp & _).
  exists tt, w', evs. split_and!; try done.
  by eapply info_is_log, removal_is_info.
Qed.

Lemma orderly_replace_absolute_paths python_root old_path_str new_path_str :
  orderly (replace_absolute_paths python_root old_path_str new_path_str).
Proof.
  apply orderly_of_logs. intros w.
  destruct (replace_absolute_paths_logs python_root old_path_str
              new_path_str w) as (w' & evs & ? & ? & ? & ? & ? & _).
  by exists tt, w', evs.
Qed.

Lemma orderly_install_packages package_list target_absolute install_root :
  orderly (install_packages tool fmt_path package_list target_absolute
             install_root).
Proof.
  unfold install_packages.
  apply orderly_bind; [apply orderly_gets|]. intros pip_present.
  destruct (negb pip_present); [by apply orderly_raise|].
  apply orderly_bind; [apply orderly_run|]. intros _.
  apply orderly_bind; [apply orderly_clean_pycache_dirs|]. intros _.
  apply orderly_bind; [apply orderly_gets|]. intros os.
  case_bool_decide.
  - apply orderly_update_macos_dylib_ids.
  - apply orderly_ret.
Qed.

(** ** Computations that end with the report *)

Lemma finishing_bind_at {A} (c : M A) (k : A → M unit) w :
  orderly_at c w → (∀ a, finishing (k a)) → finishing_at (bind c k) w.
Proof.
  intros Hc Hk r w'. unfold bind.
  destruct (c w) as [[a|e] w1] eqn:Hrun.
  - intros Hrest.
    destruct (Hc _ _ Hrun) as (evs1 & Ht1 & _ & _ & Hn1 & _).
    destruct (Hk a _ _ _ Hrest) as (evs2 & Ht2 & Hend).
    exists (evs1 ++ evs2). split; [by rewrite Ht2, Ht1, (assoc_L (++))|].
    destruct r as [[]|e].
    + destruct Hend as (msg & evs0 & -> & Hn0).
      exists msg, (evs1 ++ evs0). split; [by rewrite (assoc_L (++))|].
      by apply Forall_app.
    + destruct Hend as [Hn2 Hlast]. split; [by apply Forall_app|].
      destruct e; try done. rewrite last_app. by rewrite Hlast.
  - intros [= <- <-].
    destruct (Hc _ _ Hrun) as (evs1 & ? & _ & _ & ? & Hf).
    exists evs1. split; [done|]. split; [done|]. by destruct e.
Qed.

Lemma finishing_bind {A} (c : M A) (k : A → M unit) :
  orderly c → (∀ a, finishing (k a)) → finishing (bind c k).
Proof. intros Hc Hk w. by apply finishing_bind_at. Qed.

Lemma finishing_success msg : finishing (success msg).
Proof.
  intros w r w' [= <- <-]. exists [EvSuccess msg]. split; [done|].
  by exists msg, [].
Qed.

Lemma finishing_relocate_and_report package_list target_dir target_absolute
    install_root :
  finishing (relocate_and_report fmt_path package_list target_dir
               target_absolute install_root).
Proof.
  unfold relocate_and_report.
  apply finishing_bind; [apply orderly_replace_absolute_paths|].
  intros _. apply finishing_success.
Qed.

(** ** The builder *)

(** The first phase once the existence check has passed. *)
Lemma locate_install_root_unchecked target_dir python_version force w :
  ¬ (is_Some (fs w !! key (cwd w) target_dir) ∧ force = false) →
  locate_install_root tool target_dir python_version force w
  = (run tool (install_python_cmd (path_str true (key (cwd w) target_dir))
                 python_version) ;;
     let* install_root_paths :=
       gets (glob false (os_path_join target_dir
                           ("cpython-" +:+ python_version +:+ ".*"))) in
     match install_root_paths with
     | [] =>
         raise (FileNotFoundError
           ("Failed to find venv root at: " +:+
            os_path_join target_dir ("cpython-" +:+ python_version +:+ ".*")))
     | first :: _ =>
         ret (path_str true (key (cwd w) target_dir), Path first)
     end) w.
Proof.
  intros Hcheck.
  unfold locate_install_root, bind at 1, resolve, gets at 1.
  unfold bind at 1, exists_, gets at 1.
  replace (bool_decide _ && negb force) with false; [done|].
  case_bool_decide as Hp; [|done]. destruct force; [done|].
  destruct Hcheck. done.
Qed.

Lemma locate_install_root_refuses target_dir python_version w :
  is_Some (fs w !! key (cwd w) target_dir) →
  ∃ msg,
    locate_install_root tool target_dir python_version false w
    = (Raise (FileExistsError msg), w).
Proof.
  intros Hpresent. eexists.
  unfold locate_install_root, bind, resolve, exists_, gets, raise.
  by rewrite bool_decide_true.
Qed.

Lemma orderly_locate_install_root target_dir python_version force w :
  ¬ (is_Some (fs w !! key (cwd w) target_dir) ∧ force = false) →
  orderly_at (locate_install_root tool target_dir python_version force) w.
Proof.
  intros Hcheck r w'. rewrite locate_install_root_unchecked by done.
  revert r w'. apply orderly_bind_at; [apply orderly_run|]. intros _.
  apply orderly_bind; [apply orderly_gets|]. intros [|first rest].
  - by apply orderly_raise.
  - apply orderly_ret.
Qed.

(** How every run of the builder ends, the refusal apart. *)
Lemma finishing_build_python_env package_list target_dir python_version
    force w :
  ¬ (is_Some (fs w !! key (cwd w) target_dir) ∧ force = false) →
  finishing_at
    (build_python_env tool fmt_path package_list target_dir python_version
       force) w.
Proof.
  intros Hcheck r w'. rewrite build_python_env_phases. revert r w'.
  apply finishing_bind_at; [by apply orderly_locate_install_root|].
  intros located. apply finishing_bind; [apply orderly_install_packages|].
  intros _. apply finishing_relocate_and_report.
Qed.

Lemma build_python_env_refuses package_list target_dir python_version w :
  is_Some (fs w !! key (cwd w) target_dir) →
  ∃ msg,
    build_python_env tool fmt_path package_list target_dir python_version
      false w
    = (Raise (FileExistsError msg), w).
Proof.
  intros Hpresent. eexists.
  unfold build_python_env, bind, resolve, exists_, gets, raise.
  by rewrite bool_decide_true.
Qed.

(** X1.  The builder raises [FileExistsError] exactly when the target
    directory exists and [force] is off: with [force], or with a fresh
    target, no step of the build reports "already exists". *)
Theorem build_exists_error_iff package_list target_dir python_version force w :
  (∃ msg,
     (build_python_env tool fmt_path package_list target_dir python_version
        force w).1 = Raise (FileExistsError msg))
  ↔ is_Some (fs w !! key (cwd w) target_dir) ∧ force = false.
Proof.
  split.
  - intros [msg Hr].
    destruct (decide (is_Some (fs w !! key (cwd w) target_dir)
                      ∧ force = false)) as [|Hcheck]; [done|].
    destruct (build_python_env tool fmt_path package_list target_dir
                python_version force w) as [r w'] eqn:Hrun.
    destruct (finishing_build_python_env _ _ _ _ _ Hcheck _ _ Hrun)
      as (evs & _ & Hend).
    simpl in Hr. subst r. by destruct Hend as [_ []].
  - intros [Hpresent ->].
    destruct (build_python_env_refuses package_list target_dir
                python_version w Hpresent) as [msg ->].
    by exists msg.
Qed.

(** X2.  When the builder ends with [CalledProcessError], the failing
    command is the last event of the run: nothing is run or reported after
    an external tool has failed. *)
Theorem build_stops_at_failed_command package_list target_dir python_version
    force w cmd :
  (build_python_env tool fmt_path package_list target_dir python_version
     force w).1 = Raise (CalledProcessError cmd) →
  last (trace (build_python_env tool fmt_path package_list target_dir
                 python_version force w).2) = Some (EvRun cmd).
Proof.
  destruct (build_python_env tool fmt_path package_list target_dir
              python_version force w) as [r w'] eqn:Hrun.
  simpl. intros ->.
  destruct (decide (is_Some (fs w !! key (cwd w) target_dir)
                    ∧ force = false)) as [[Hpresent ->]|Hcheck].
  - destruct (build_python_env_refuses package_list target_dir
                python_version w Hpresent) as [msg Hr].
    congruence.
  - destruct (finishing_build_python_env _ _ _ _ _ Hcheck _ _ Hrun)
      as (evs & -> & _ & Hlast).
    rewrite last_app. by rewrite Hlast.
Qed.

(** X3.  The success report is the last event of a run that returns
    normally and the only report in it; a run that raises emits no
    report at all. *)
Theorem build_reports_success_once package_list target_dir python_version
    force w :
  ∃ evs,
    trace (build_python_env tool fmt_path package_list target_dir
             python_version force w).2 = trace w ++ evs ∧
    match (build_python_env tool fmt_path package_list target_dir
             python_version force w).1 with
    | Ok _ =>
        ∃ msg evs0, evs = evs0 ++ [EvSuccess msg] ∧
                    Forall (λ e, ¬ is_report e) evs0
    | Raise _ => Forall (λ e, ¬ is_report e) evs
    end.
Proof.
  destruct (build_python_env tool fmt_path package_list target_dir
              python_version force w) as [r w'] eqn:Hrun.
  simpl.
  destruct (decide (is_Some (fs w !! key (cwd w) target_dir)
                    ∧ force = false)) as [[Hpresent ->]|Hcheck].
  - destruct (build_python_env_refuses package_list target_dir
                python_version w Hpresent) as [msg Hr].
    rewrite Hr in Hrun. injection Hrun as <- <-.
    exists []. split; [by rewrite (right_id_L [] (++))|constructor].
  - destruct (finishing_build_python_env _ _ _ _ _ Hcheck _ _ Hrun)
      as (evs & Ht & Hend).
    exists evs. split; [done|]. destruct r; [done|]. by destruct Hend.
Qed.

End Outcomes.

(** * What a build runs *)

Section Commands.

Variable tool : list string → gmap path node → option (gmap path node).
Variable fmt_path : string → string.

Implicit Types (w : world) (evs : list event).

Lemma commands_info_only evs : Forall is_info evs → commands evs = [].
Proof. intros H. by apply commands_logs, info_is_log. Qed.

(** The first phase, when it returns: the interpreter installation
    succeeded and the Install Root is the first match of the pattern in
    the tree the installer left. *)
Lemma locate_install_root_ok target_dir python_version force w
    target_absolute install_root w1 :
  locate_install_root tool target_dir python_version force w
    = (Ok (target_absolute, install_root), w1) →
  ∃ m1 first rest,
    target_absolute = path_str true (key (cwd w) target_dir) ∧
    tool (install_python_cmd target_absolute python_version) (fs w)
      = Some m1 ∧
    w1 = with_fs m1
           (emit (EvRun (install_python_cmd target_absolute python_version))
              w) ∧
    glob false (os_path_join target_dir
                  ("cpython-" +:+ python_version +:+ ".*")) w1
      = first :: rest ∧
    install_root = Path first.
Proof.
  destruct (decide (is_Some (fs w !! key (cwd w) target_dir)
                    ∧ force = false)) as [[Hpresent ->]|Hcheck].
  { destruct (locate_install_root_refuses tool target_dir python_version
                w Hpresent) as [msg ->]. done. }
  rewrite locate_install_root_unchecked by done. unfold bind at 1.
  destruct (tool (install_python_cmd (path_str true (key (cwd w) target_dir))
                    python_version) (fs w)) as [m1|] eqn:Htool.
  2:{ by rewrite run_fail. }
  rewrite (run_ok _ _ _ m1) by done. unfold bind, gets.
  destruct (glob false _ _) as [|first rest] eqn:Hglob; [done|].
  intros [= <- <- <-]. by exists m1, first, rest.
Qed.

(** The second phase, when it returns: the package installation
    succeeded, and on [darwin] the patcher has run the command of every
    library it found in the tree left by the cache cleanup. *)
Lemma install_packages_ok package_list target_absolute install_root w1 w2 :
  install_packages tool fmt_path package_list target_absolute install_root w1
    = (Ok tt, w2) →
  ∃ m2 rels,
    let pip_cmd := pip_install_cmd package_list install_root in
    let wc := (clean_pycache_dirs fmt_path target_absolute
                 (with_fs m2 (emit (EvRun pip_cmd) w1))).2 in
    let dylib_paths :=
      if bool_decide (platform w1 = "darwin")
      then glob true (install_root +:+ "/lib/**/*.dylib") wc else [] in
    tool pip_cmd (fs w1) = Some m2 ∧
    Forall2 (λ p rel, relative_to p install_root = Some rel)
      dylib_paths rels ∧
    commands (trace w2)
    = commands (trace w1) ++
      pip_cmd :: zip_with install_name_cmd dylib_paths rels.
Proof.
  unfold install_packages. unfold bind at 1, exists_, gets at 1.
  destruct (negb _); [done|]. unfold bind at 1.
  change (["uv"; "pip"; "install"] ++ package_list ++
          ["--python"; install_root; "--break-system-packages"])
    with (pip_install_cmd package_list install_root).
  destruct (tool (pip_install_cmd package_list install_root) (fs w1))
    as [m|] eqn:Htool.
  2:{ by rewrite run_fail. }
  rewrite (run_ok _ _ _ m) by done.
  set (wa := with_fs m (emit (EvRun _) w1)).
  assert (commands (trace wa)
          = commands (trace w1) ++ [pip_install_cmd package_list install_root])
    as Hwa by (subst wa; simpl; by rewrite commands_app).
  assert (platform wa = platform w1) as Hpa by done.
  unfold bind at 1.
  destruct (clean_pycache_dirs_tidied fmt_path target_absolute wa)
    as (wc & Hclean & (evs & Ht & Hi) & _ & Hpc & _).
  rewrite Hclean.
  assert (commands (trace wc) = commands (trace wa)) as Hwc.
  { rewrite Ht, commands_app,
      (commands_info_only _ (removal_is_info _ _ _ _ Hi)).
    by rewrite (right_id_L [] (++)). }
  intros Hgoal. exists m. cbv zeta. fold wa. rewrite Hclean. cbn [snd].
  revert Hgoal. unfold bind at 1, gets at 1.
  rewrite Hpc, Hpa. case_bool_decide as Hos.
  - unfold update_macos_dylib_ids, bind at 1, gets.
    destruct (dylib_loop tool install_root
                (glob true (install_root +:+ "/lib/**/*.dylib") wc) wc)
      as (r & w' & treated & rels & Hrun & _ & Hrels & Hcmds & Hall).
    intros Hgoal.
    assert ((r, w') = (Ok tt, w2)) as [= -> ->]
      by (rewrite <- Hrun; exact Hgoal).
    rewrite Hall in Hrels, Hcmds by done.
    exists rels. split_and!; [done..|].
    rewrite Hcmds, Hwc, Hwa. by rewrite <- (assoc_L (++)).
  - intros [= <-]. exists []. split_and!; [done|constructor|].
    by rewrite Hwc, Hwa.
Qed.

(** The last phase runs no command. *)
Lemma relocate_and_report_commands package_list target_dir target_absolute
    install_root w2 :
  commands (trace (relocate_and_report fmt_path package_list target_dir
                     target_absolute install_root w2).2)
  = commands (trace w2).
Proof.
  unfold relocate_and_report, bind.
  destruct (replace_absolute_paths_logs install_root target_absolute
              target_dir w2) as (w3 & evs & -> & Ht & Hl & _).
  cbn. rewrite Ht, !commands_app, (commands_logs _ Hl). cbn.
  by rewrite !(right_id_L [] (++)).
Qed.

(** X4.  A build that returns normally has run the interpreter
    installation, then the package installation for the package list as
    given and for the Install Root, which is the first match of
    [cpython-<version>.*] in the tree the installer left, and after that,
    on [darwin], one [install_name_tool] command for every library that
    [lib/**/*.dylib] matches below that Install Root once the caches are
    removed, each with the path of the library relative to the Install
    Root; on another platform it has run exactly the first two. *)
Theorem build_commands package_list target_dir python_version force w :
  let target_absolute := path_str true (key (cwd w) target_dir) in
  let install_cmd := install_python_cmd target_absolute python_version in
  (build_python_env tool fmt_path package_list target_dir python_version
     force w).1 = Ok tt →
  ∃ m1 first rest m2 rels,
    let w1 := with_fs m1 (emit (EvRun install_cmd) w) in
    let install_root := Path first in
    let pip_cmd := pip_install_cmd package_list install_root in
    let wc := (clean_pycache_dirs fmt_path target_absolute
                 (with_fs m2 (emit (EvRun pip_cmd) w1))).2 in
    let dylib_paths :=
      if bool_decide (platform w = "darwin")
      then glob true (install_root +:+ "/lib/**/*.dylib") wc else [] in
    tool install_cmd (fs w) = Some m1 ∧
    glob false (os_path_join target_dir
                  ("cpython-" +:+ python_version +:+ ".*")) w1
      = first :: rest ∧
    tool pip_cmd m1 = Some m2 ∧
    Forall2 (λ p rel, relative_to p install_root = Some rel)
      dylib_paths rels ∧
    commands (trace (build_python_env tool fmt_path package_list target_dir
                       python_version force w).2)
    = commands (trace w) ++
      install_cmd :: pip_cmd :: zip_with install_name_cmd dylib_paths rels.
Proof.
  intros target_absolute install_cmd.
  destruct (build_python_env tool fmt_path package_list target_dir
              python_version force w) as [r w'] eqn:Hrun.
  cbn [fst snd]. intros ->.
  rewrite build_python_env_phases in Hrun. unfold bind at 1 in Hrun.
  destruct (locate_install_root tool target_dir python_version force w)
    as [[[target_absolute' install_root]|e] w1] eqn:Hlocate; [|done].
  apply locate_install_root_ok in Hlocate
    as (m1 & first & rest & -> & Htool1 & -> & Hglob & ->).
  fold target_absolute in Hrun, Htool1, Hglob. fold install_cmd in Hrun, Htool1, Hglob.
  cbn [fst snd] in Hrun. unfold bind at 1 in Hrun.
  destruct (install_packages tool fmt_path package_list target_absolute
              (Path first) (with_fs m1 (emit (EvRun install_cmd) w)))
    as [[[]|e] w2] eqn:Hinstall; [|done].
  apply install_packages_ok in Hinstall as (m2 & rels & Hinst).
  cbv zeta in Hinst. destruct Hinst as (Htool2 & Hrels & Hc2).
  pose proof (relocate_and_report_commands package_list target_dir
                target_absolute (Path first) w2) as Hc3.
  rewrite Hrun in Hc3. cbn [snd] in Hc3.
  exists m1, first, rest, m2, rels. cbv zeta.
  split_and!; [done..|].
  rewrite Hc3, Hc2. cbn [trace with_fs emit]. rewrite commands_app.
  by rewrite <- (assoc_L (++)).
Qed.

(** X5.  When the interpreter has been installed and the Install Root is
    found but holds no [bin/pip], the builder raises [FileNotFoundError]
    naming that path, with the interpreter installation as the only
    command run: the package installation is not attempted. *)
Theorem build_needs_pip package_list target_dir python_version force w m1
    first rest :
  let target_absolute := path_str true (key (cwd w) target_dir) in
  let cmd := install_python_cmd target_absolute python_version in
  let w1 := with_fs m1 (emit (EvRun cmd) w) in
  let pip_path := path_div (path_div (Path first) "bin") "pip" in
  ¬ (is_Some (fs w !! key (cwd w) target_dir) ∧ force = false) →
  tool cmd (fs w) = Some m1 →
  glob false (os_path_join target_dir ("cpython-" +:+ python_version +:+ ".*"))
    w1 = first :: rest →
  m1 !! key (cwd w) pip_path = None →
  build_python_env tool fmt_path package_list target_dir python_version
    force w
  = (Raise (FileNotFoundError ("Failed to find pip at: " +:+ fmt_path pip_path)),
     w1) ∧
  commands (trace w1) = commands (trace w) ++ [cmd].
Proof.
  intros target_absolute cmd w1 pip_path Hcheck Htool Hglob Hpip.
  split; [|subst w1; simpl; by rewrite commands_app].
  rewrite build_python_env_phases. unfold bind at 1.
  rewrite locate_install_root_unchecked by done. unfold bind at 1.
  fold target_absolute. fold cmd. rewrite (run_ok _ _ _ m1) by done.
  fold w1. unfold bind at 1, gets at 1. rewrite Hglob.
  unfold ret. cbn [fst snd]. unfold bind at 1.
  unfold install_packages, bind at 1, exists_, gets at 1.
  fold pip_path.
  replace (bool_decide (is_Some (fs w1 !! key (cwd w1) pip_path)))
    with false; [done|].
  symmetry. apply bool_decide_eq_false. subst w1. cbn [fs cwd with_fs emit].
  rewrite Hpip. by intros [? ?].
Qed.

(** X16.  When the interpreter installation has run but no directory
    matches [cpython-<version>.*] below the target, the builder raises
    [FileNotFoundError] naming the pattern, with the interpreter
    installation as the only command run. *)
Theorem build_needs_install_root package_list target_dir python_version force
    w m1 :
  let target_absolute := path_str true (key (cwd w) target_dir) in
  let cmd := install_python_cmd target_absolute python_version in
  let w1 := with_fs m1 (emit (EvRun cmd) w) in
  let install_root_pat :=
    os_path_join target_dir ("cpython-" +:+ python_version +:+ ".*") in
  ¬ (is_Some (fs w !! key (cwd w) target_dir) ∧ force = false) →
  tool cmd (fs w) = Some m1 →
  glob false install_root_pat w1 = [] →
  build_python_env tool fmt_path package_list target_dir python_version
    force w
  = (Raise (FileNotFoundError
              ("Failed to find venv root at: " +:+ install_root_pat)), w1) ∧
  commands (trace w1) = commands (trace w) ++ [cmd].
Proof.
  intros target_absolute cmd w1 install_root_pat Hcheck Htool Hglob.
  split; [|subst w1; simpl; by rewrite commands_app].
  rewrite build_python_env_phases. unfold bind at 1.
  rewrite locate_install_root_unchecked by done. unfold bind at 1.
  fold target_absolute. fold cmd. rewrite (run_ok _ _ _ m1) by done.
  fold w1. unfold bind at 1, gets at 1. fold install_root_pat.
  by rewrite Hglob.
Qed.

End Commands.

(** * More on cache cleanup *)

Section Cleanup.

Variable fmt_path : string → string.

Implicit Types (w : world) (k top : path).


(** X7.  Cache cleanup only deletes, and only cache entries: an entry
    still present afterwards is what it was, and an entry that is gone
    had a component named [__pycache__] below the root.  The root and
    everything outside it are never touched. *)
Theorem cleanup_only_deletes_cache dir_path w :
  let top := key (cwd w) dir_path in
  let w' := (clean_pycache_dirs fmt_path dir_path w).2 in
  (∀ k v, fs w' !! k = Some v → fs w !! k = Some v) ∧
  (∀ k, fs w' !! k ≠ fs w !! k →
        ∃ d rest, k = top ++ d ++ "__pycache__" :: rest) ∧
  (∀ k, ¬ top `prefix_of` k → fs w' !! k = fs w !! k) ∧
  fs w' !! top = fs w !! top.
Proof.
  intros top w'. subst w'.
  destruct (clean_pycache_dirs_tidied fmt_path dir_path w)
    as (w' & -> & _ & _ & _ & _ & Hsub & Hch).
  cbn [snd]. fold top in Hch. split_and!; [done..| |].
  - intros k Hout.
    destruct (decide (fs w' !! k = fs w !! k)) as [|Hne]; [done|].
    destruct (Hch k Hne) as (d & rest & ->). destruct Hout.
    by apply prefix_app_r.
  - destruct (decide (fs w' !! top = fs w !! top)) as [|Hne]; [done|].
    destruct (Hch top Hne) as (d & rest & Heq).
    apply (f_equal length) in Heq. rewrite !length_app in Heq.
    simpl in Heq. lia.
Qed.

Lemma os_walk_pycache_noop depth top w :
  (∀ d, fs w !! (top ++ d ++ ["__pycache__"]) ≠ Some Dir) →
  os_walk depth (pycache_body fmt_path) top w = (Ok tt, w).
Proof.
  revert top. induction depth as [|depth IH]; intros top Hnone; [done|].
  cbn [os_walk]. unfold bind at 1, gets.
  destruct (scandir (fs w) top) as [[dirnames filenames]|] eqn:Hscan;
    [|done].
  apply scandir_Some in Hscan as [_ Hdirs].
  unfold bind. unfold pycache_body at 1.
  rewrite bool_decide_false.
  2:{ intros Hin%Hdirs. by apply (Hnone []). }
  unfold ret. clear Hdirs.
  induction dirnames as [|n names IHn]; [done|].
  cbn [for_each]. unfold bind. rewrite IH; [done|].
  intros d. rewrite <- (assoc_L (++)). apply (Hnone (n :: d)).
Qed.

(** X8.  On a tree that holds no directory named [__pycache__] below the
    root, cache cleanup returns the world exactly as it was given: no
    entry changes and nothing is logged. *)
Theorem cleanup_without_cache dir_path w :
  (∀ d, fs w !! (key (cwd w) dir_path ++ d ++ ["__pycache__"]) ≠ Some Dir) →
  clean_pycache_dirs fmt_path dir_path w = (Ok tt, w).
Proof.
  intros Hnone. unfold clean_pycache_dirs, bind, gets.
  by apply os_walk_pycache_noop.
Qed.

(** X9.  Cache cleanup is idempotent on a well-formed tree: a second
    cleanup right after the first returns the world the first one
    left. *)
Theorem cleanup_idempotent dir_path w :
  wf_fs (fs w) →
  ∃ w1,
    clean_pycache_dirs fmt_path dir_path w = (Ok tt, w1) ∧
    clean_pycache_dirs fmt_path dir_path w1 = (Ok tt, w1).
Proof.
  intros Hwf.
  destruct (os_walk_pycache fmt_path (S (fs_depth (fs w)))
              (key (cwd w) dir_path) w Hwf) as (w1 & Hrun & Hsub & Hgone & _).
  { intros k Hk%fs_depth_bound. lia. }
  destruct (clean_pycache_dirs_tidied fmt_path dir_path w)
    as (w1' & Hrun' & _ & Hcwd & _).
  assert (clean_pycache_dirs fmt_path dir_path w = (Ok tt, w1)) as Hclean
    by exact Hrun.
  rewrite Hclean in Hrun'. injection Hrun' as <-.
  exists w1. split; [done|].
  unfold clean_pycache_dirs, bind, gets. rewrite Hcwd.
  apply os_walk_pycache_noop. intros d Hdir.
  rewrite Hgone in Hdir; [done|].
  exists d. split; [done|]. by apply Hsub.
Qed.

End Cleanup.

(** * More on the relocation step *)

Section Relocation.

Implicit Types (w : world) (k : path) (old new content : bytes).

Lemma replace_same old s : replace old old s = s.
Proof.
  destruct (decide (old = [])) as [->|Hne].
  { simpl. induction s as [|b s IH]; simpl; congruence. }
  induction s as [|b s Hsw IH|b s Hsw IH] using (scan_ind old).
  - by apply replace_nil.
  - rewrite replace_cons, Hsw, IH by done.
    destruct old as [|a old]; [done|]. symmetry. by apply starts_with_rest.
  - by rewrite replace_cons, Hsw, IH.
Qed.

Lemma file_count_absent old w k :
  (∀ content t, fs w !! k = Some (File content t) → ¬ occurs old content) →
  file_count old (fs w) k = 0.
Proof.
  intros Hno. unfold file_count.
  destruct (fs w !! k) as [[content t|]|]; try done.
  apply count_zero_occurs. by eapply Hno.
Qed.

(** The kind of an entry survives a replace pass. *)
Lemma patch_all_dir old new files w k :
  NoDup files →
  fs (foldl (patch_file old new) w files) !! k = Some Dir
  ↔ fs w !! k = Some Dir.
Proof.
  intros Hnd. destruct (decide (k ∈ files)) as [Hin|Hout].
  - destruct (patch_all_lookup_in old new files w k Hnd Hin) as [t' ->].
    destruct (fs w !! k) as [[content t|]|]; try done.
    by case_bool_decide.
  - by rewrite patch_all_lookup_notin.
Qed.

(** The relocation step with its intermediate worlds named. *)
Lemma replace_absolute_paths_steps python_root old_path_str new_path_str w :
  ∃ msg,
    let w0 := emit (EvInfo msg) (emit (EvInfo EmptyString) w) in
    let wp := foldl (patch_file (encode old_path_str) (encode new_path_str))
                w0 (file_set [python_root +:+ "/bin/*";
                              python_root +:+ "/lib/**/*.py"] w0) in
    let ws := emit (EvInfo "Sanity checking if any absolute paths remain...")
                (emit (EvInfo EmptyString) wp) in
    replace_absolute_paths python_root old_path_str new_path_str w
    = (Ok tt,
       emit (verdict old_path_str
               (sum_list (file_count (encode old_path_str) (fs ws)
                            <$> file_set [python_root +:+ "/**/*"] ws)))
         ws).
Proof. eexists. apply replace_absolute_paths_eval. Qed.

(** X10.  The relocation step never raises, runs no external command and
    keeps the shape of the tree: the same names exist afterwards,
    directories stay directories, and the working directory and the
    platform are kept. *)
Theorem relocation_keeps_tree python_root old_path_str new_path_str w :
  ∃ w' evs,
    replace_absolute_paths python_root old_path_str new_path_str w
      = (Ok tt, w') ∧
    trace w' = trace w ++ evs ∧ Forall is_log evs ∧
    commands (trace w') = commands (trace w) ∧
    cwd w' = cwd w ∧ platform w' = platform w ∧
    dom (fs w') = dom (fs w) ∧
    (∀ k, fs w' !! k = Some Dir ↔ fs w !! k = Some Dir).
Proof.
  destruct (replace_absolute_paths_logs python_root old_path_str
              new_path_str w) as (w' & evs & Hrun & Ht & Hl & Hc & Hp & Hd).
  exists w', evs. split_and!; try done.
  - rewrite Ht, commands_app, (commands_logs _ Hl).
    by rewrite (right_id_L [] (++)).
  - intros k.
    destruct (replace_absolute_paths_steps python_root old_path_str
                new_path_str w) as [msg Hsteps].
    cbv zeta in Hsteps. rewrite Hrun in Hsteps. injection Hsteps as ->.
    cbn [fs emit].
    change (fs w !! k)
      with (fs (emit (EvInfo msg) (emit (EvInfo EmptyString) w)) !! k).
    apply patch_all_dir, NoDup_file_set.
Qed.

(** X11.  When no regular file of the tree contains the old path, the
    relocation step writes nothing (file system and clock are as before)
    and closes with the confirmation. *)
Theorem relocation_of_clean_tree python_root old_path_str new_path_str w :
  (∀ k content t, fs w !! k = Some (File content t) →
                  ¬ occurs (encode old_path_str) content) →
  ∃ w',
    replace_absolute_paths python_root old_path_str new_path_str w
      = (Ok tt, w') ∧
    fs w' = fs w ∧ clock w' = clock w ∧
    last (trace w')
    = Some (EvInfo "Great! No absolute paths found in the installed files.").
Proof.
  intros Hclean.
  destruct (replace_absolute_paths_steps python_root old_path_str
              new_path_str w) as [msg Hsteps].
  cbv zeta in Hsteps.
  set (w0 := emit (EvInfo msg) (emit (EvInfo EmptyString) w)) in Hsteps.
  assert (∀ files, Forall (λ k, file_count (encode old_path_str) (fs w0) k = 0)
                     files) as Hzero.
  { intros files. apply Forall_forall. intros k _.
    apply file_count_absent. intros content t. apply Hclean. }
  destruct (patch_all_clean (encode old_path_str) (encode new_path_str)
              (file_set [python_root +:+ "/bin/*";
                         python_root +:+ "/lib/**/*.py"] w0) w0 (Hzero _))
    as [Hsame _].
  rewrite Hsame in Hsteps.
  destruct (patch_all_clean (encode old_path_str) (encode new_path_str)
              (file_set [python_root +:+ "/**/*"]
                 (emit (EvInfo "Sanity checking if any absolute paths remain...")
                    (emit (EvInfo EmptyString) w0))) w0 (Hzero _))
    as [_ Hsum].
  change (fs (emit (EvInfo "Sanity checking if any absolute paths remain...")
                (emit (EvInfo EmptyString) w0))) with (fs w0) in Hsteps.
  rewrite Hsum in Hsteps.
  eexists. split; [exact Hsteps|]. split_and!; [done..|].
  cbn [trace emit]. apply last_snoc.
Qed.

(** X12.  A regular file below the Install Root that the two text
    patterns do not cover and that contains the old path is left as it is
    and makes the relocation step close with the warning. *)
Theorem relocation_warns_about_leftover python_root old_path_str new_path_str
    w k content t :
  k ∈ file_set [python_root +:+ "/**/*"] w →
  k ∉ file_set [python_root +:+ "/bin/*"; python_root +:+ "/lib/**/*.py"] w →
  fs w !! k = Some (File content t) →
  occurs (encode old_path_str) content →
  ∃ w' text,
    replace_absolute_paths python_root old_path_str new_path_str w
      = (Ok tt, w') ∧
    fs w' !! k = Some (File content t) ∧
    last (trace w') = Some (EvWarn text).
Proof.
  intros Hall Htext Hfile Hocc.
  destruct (replace_absolute_paths_steps python_root old_path_str
              new_path_str w) as [msg Hsteps].
  cbv zeta in Hsteps.
  set (w0 := emit (EvInfo msg) (emit (EvInfo EmptyString) w)) in Hsteps.
  set (wp := foldl _ w0 _) in Hsteps.
  set (ws := emit (EvInfo "Sanity checking if any absolute paths remain...")
               (emit (EvInfo EmptyString) wp)) in Hsteps.
  set (n := sum_list _) in Hsteps.
  assert (fs wp !! k = Some (File content t)) as Hk.
  { unfold wp. by rewrite patch_all_lookup_notin. }
  destruct (patch_all_frame (encode old_path_str) (encode new_path_str)
              (file_set [python_root +:+ "/bin/*";
                         python_root +:+ "/lib/**/*.py"] w0) w0)
    as (Hcwd & _ & _ & Hdom).
  fold wp in Hcwd, Hdom.
  assert (0 < n) as Hn.
  { eapply Nat.lt_le_trans;
      [|apply (sum_list_with_in (file_count (encode old_path_str) (fs ws) k)
                 id)].
    - unfold file_count. change (fs ws) with (fs wp). rewrite Hk.
      by apply count_pos_occurs.
    - apply list_elem_of_fmap. exists k. split; [done|].
      by apply (elem_of_file_set_dom _ w ws). }
  eexists _, _. split; [exact Hsteps|]. split; [exact Hk|].
  cbn [trace emit]. rewrite last_snoc. unfold verdict.
  by rewrite bool_decide_true by lia.
Qed.

(** X13.  When the old and the new path are the same string, as for a
    target directory given by its absolute path, the relocation step
    leaves the bytes of every regular file as they were. *)
Theorem relocation_with_equal_paths python_root path_str_ w :
  ∃ w',
    replace_absolute_paths python_root path_str_ path_str_ w = (Ok tt, w') ∧
    ∀ k content t, fs w !! k = Some (File content t) →
                   ∃ t', fs w' !! k = Some (File content t').
Proof.
  destruct (replace_absolute_paths_steps python_root path_str_ path_str_ w)
    as [msg Hsteps].
  cbv zeta in Hsteps.
  set (w0 := emit (EvInfo msg) (emit (EvInfo EmptyString) w)) in Hsteps.
  eexists. split; [exact Hsteps|]. intros k content t Hfile.
  cbn [fs emit].
  set (files := file_set _ w0).
  destruct (decide (k ∈ files)) as [Hin|Hout].
  - destruct (patch_all_lookup_in (encode path_str_) (encode path_str_)
                files w0 k (NoDup_file_set _ _) Hin) as [t' ->].
    change (fs w0 !! k) with (fs w !! k). rewrite Hfile, replace_same.
    case_bool_decide; eauto.
  - rewrite patch_all_lookup_notin by done. eauto.
Qed.

End Relocation.

(** * More on the binary metadata patcher *)

Section PathStrings.

Implicit Types (s cur : string) (rel : path).
















End PathStrings.

Section Patcher.

Variable tool : list string → gmap path node → option (gmap path node).

Implicit Types (w : world) (p : string).






End Patcher.

(** * The statements on the sample tree *)

(** A run is determined by its outcome and the world it leaves. *)
Lemma run_result {A} (c : M A) (w : world) (r : outcome A) :
  (c w).1 = r → c w = (r, (c w).2).
Proof. intros <-. by destruct (c w). Qed.

(** Settle [c w = (r, w')], for [w'] the world [c] leaves, by running
    [c] for its outcome. *)
Ltac run_eq :=
  lazymatch goal with
  | |- ?c ?w = (?r, _) =>
      exact (run_result c w r ltac:(vm_compute; reflexivity))
  end.

(** The shebang line of [bin/pip] is rewritten from the absolute to the
    relative path. *)
Lemma search_replace_rewrites_witness :
  pip_key ∈ file_set sample_patterns sample_world ∧
  fs sample_world !! pip_key = Some (File pip_content 0) ∧
  occurs (encode "/srv/env") pip_content ∧
  ∃ n w' t' segs,
    search_replace_in_files sample_patterns (encode "/srv/env")
      (Some (encode "env")) sample_world = (Ok n, w') ∧
    fs w' !! pip_key
      = Some (File (encode "#!env/cpython-3.13.1-linux/bin/python3") t') ∧
    pip_content = join_bytes (encode "/srv/env") segs ∧
    encode "#!env/cpython-3.13.1-linux/bin/python3"
      = join_bytes (encode "env") segs ∧
    length segs = 2.
Proof.
  assert (pip_key ∈ file_set sample_patterns sample_world) as Hin.
  { apply (bool_decide_unpack _). vm_compute. exact I. }
  assert (fs sample_world !! pip_key = Some (File pip_content 0)) as Hfile.
  { vm_compute. reflexivity. }
  assert (occurs (encode "/srv/env") pip_content) as Hocc.
  { exists (encode "#!"), (encode "/cpython-3.13.1-linux/bin/python3").
    vm_compute. reflexivity. }
  split_and!; [assumption..|].
  destruct (search_replace_rewrites sample_patterns (encode "/srv/env")
              (encode "env") sample_world pip_key pip_content 0 Hin Hfile Hocc)
    as (n & w' & t' & segs & Hrun & Hnew & Hcut & Hjoin & Hlen & _).
  assert (replace (encode "/srv/env") (encode "env") pip_content
          = encode "#!env/cpython-3.13.1-linux/bin/python3") as Hrep
    by (vm_compute; reflexivity).
  assert (count (encode "/srv/env") pip_content = 1) as Hcount
    by (vm_compute; reflexivity).
  rewrite Hrep in Hnew, Hjoin. rewrite Hcount in Hlen.
  exists n, w', t', segs. split_and!; assumption.
Defined.

(** With a target directory given by its absolute path the old and the
    new path coincide, and the rewritten file holds the old path as
    before. *)
Lemma search_replace_rewrites_counterexample :
  pip_key ∈ file_set sample_patterns sample_world ∧
  fs sample_world !! pip_key = Some (File pip_content 0) ∧
  occurs (encode "/srv/env") pip_content ∧
  ∃ w' content' t',
    search_replace_in_files sample_patterns (encode "/srv/env")
      (Some (encode "/srv/env")) sample_world = (Ok 2, w') ∧
    fs w' !! pip_key = Some (File content' t') ∧
    occurs (encode "/srv/env") content'.
Proof.
  split_and!.
  - apply (bool_decide_unpack _). vm_compute. exact I.
  - vm_compute. reflexivity.
  - exists (encode "#!"), (encode "/cpython-3.13.1-linux/bin/python3").
    vm_compute. reflexivity.
  - exists (search_replace_in_files sample_patterns (encode "/srv/env")
              (Some (encode "/srv/env")) sample_world).2, pip_content, 1.
    split_and!.
    + run_eq.
    + vm_compute. reflexivity.
    + exists (encode "#!"), (encode "/cpython-3.13.1-linux/bin/python3").
      vm_compute. reflexivity.
Qed.

Lemma search_replace_skips_witness :
  site_key ∈ file_set sample_patterns sample_world ∧
  fs sample_world !! site_key = Some (File (encode "import sys") 0) ∧
  ¬ occurs (encode "/srv/env") (encode "import sys") ∧
  ∃ n w',
    search_replace_in_files sample_patterns (encode "/srv/env")
      (Some (encode "env")) sample_world = (Ok n, w') ∧
    fs w' !! site_key = Some (File (encode "import sys") 0).
Proof.
  assert (site_key ∈ file_set sample_patterns sample_world) as Hin.
  { apply (bool_decide_unpack _). vm_compute. exact I. }
  assert (fs sample_world !! site_key = Some (File (encode "import sys") 0))
    as Hfile.
  { vm_compute. reflexivity. }
  assert (¬ occurs (encode "/srv/env") (encode "import sys")) as Hocc.
  { apply count_zero_occurs. vm_compute. reflexivity. }
  split_and!; [assumption..|].
  exact (search_replace_skips sample_patterns (encode "/srv/env")
           (encode "env") sample_world site_key (encode "import sys") 0
           Hin Hfile Hocc).
Defined.

Lemma search_replace_idempotent_witness :
  encode "/srv/env" ≠ [] ∧ encode "RELOC" ≠ [] ∧
  (∀ x, x ∈ encode "RELOC" → x ∉ encode "/srv/env") ∧
  ∃ n w',
    search_replace_in_files sample_patterns (encode "/srv/env")
      (Some (encode "RELOC")) sample_world = (Ok n, w') ∧
    search_replace_in_files sample_patterns (encode "/srv/env")
      (Some (encode "RELOC")) w' = (Ok 0, w').
Proof.
  assert (encode "/srv/env" ≠ []) as Hold by (vm_compute; discriminate).
  assert (encode "RELOC" ≠ []) as Hnew by (vm_compute; discriminate).
  assert (∀ x, x ∈ encode "RELOC" → x ∉ encode "/srv/env") as Hdisj.
  { apply Forall_forall. apply (bool_decide_unpack _). vm_compute. exact I. }
  split_and!; [assumption..|].
  exact (search_replace_idempotent sample_patterns (encode "/srv/env")
           (encode "RELOC") sample_world Hold Hnew Hdisj).
Defined.

(** When the new path extends the old one, the second pass finds the
    old path again and rewrites the files a second time. *)
Lemma search_replace_idempotent_counterexample :
  ∃ w1 w2 t1 t2,
    search_replace_in_files sample_patterns (encode "/srv/env")
      (Some (encode "/srv/env2")) sample_world = (Ok 2, w1) ∧
    search_replace_in_files sample_patterns (encode "/srv/env")
      (Some (encode "/srv/env2")) w1 = (Ok 2, w2) ∧
    fs w1 !! pip_key
      = Some (File (encode "#!/srv/env2/cpython-3.13.1-linux/bin/python3") t1) ∧
    fs w2 !! pip_key
      = Some (File (encode "#!/srv/env22/cpython-3.13.1-linux/bin/python3") t2).
Proof.
  pose (w1 := (search_replace_in_files sample_patterns (encode "/srv/env")
                 (Some (encode "/srv/env2")) sample_world).2).
  pose (w2 := (search_replace_in_files sample_patterns (encode "/srv/env")
                 (Some (encode "/srv/env2")) w1).2).
  exists w1, w2, 1, 3. split_and!.
  - run_eq.
  - run_eq.
  - vm_compute. reflexivity.
  - vm_compute. reflexivity.
Qed.

(** In [/a/a/a] the path [/a/a] starts at two positions that overlap;
    the scan counts one occurrence. *)
Lemma scan_only_counts_counterexample :
  file_set ["a/*"] overlap_world = [overlap_key] ∧
  fs overlap_world !! overlap_key = Some (File (encode "/a/a/a") 0) ∧
  encode "/a/a/a" = [] ++ encode "/a/a" ++ encode "/a" ∧
  encode "/a/a/a" = encode "/a" ++ encode "/a/a" ++ [] ∧
  occurrences (encode "/a/a") (encode "/a/a/a") = 2 ∧
  search_replace_in_files ["a/*"] (encode "/a/a") None overlap_world
    = (Ok 1, overlap_world).
Proof.
  split_and!; [vm_compute; reflexivity..|].
  rewrite search_replace_scan.
  apply (f_equal (λ n, (Ok n, overlap_world))). vm_compute. reflexivity.
Qed.

Lemma build_refuses_existing_target_witness :
  is_Some (fs sample_world !! key (cwd sample_world) "env") ∧
  ∃ msg,
    build_python_env sample_tool id ["requests"] "env" "3.13" false sample_world
    = (Raise (FileExistsError msg), sample_world).
Proof.
  assert (is_Some (fs sample_world !! key (cwd sample_world) "env")) as Hthere.
  { apply (bool_decide_unpack _). vm_compute. exact I. }
  split; [assumption|].
  exact (build_refuses_existing_target sample_tool id ["requests"] "env" "3.13"
           sample_world Hthere).
Defined.

Lemma build_locates_install_root_witness :
  (is_Some (fs bare_world !! key (cwd bare_world) "env") → false = true) ∧
  sample_tool (install_python_cmd "/srv/env" "3.13") (fs bare_world)
    = Some sample_fs ∧
  glob false "env/cpython-3.13.*" installed_world
    = ["env/cpython-3.13.1-linux"] ∧
  locate_install_root sample_tool "env" "3.13" false bare_world
    = (Ok ("/srv/env", "env/cpython-3.13.1-linux"), installed_world) ∧
  build_python_env sample_tool id ["requests"] "env" "3.13" false bare_world
    = (install_packages sample_tool id ["requests"] "/srv/env"
         "env/cpython-3.13.1-linux" ;;
       relocate_and_report id ["requests"] "env" "/srv/env"
         "env/cpython-3.13.1-linux") installed_world.
Proof.
  assert (is_Some (fs bare_world !! key (cwd bare_world) "env") → false = true)
    as Hforce.
  { intros Hthere. apply (bool_decide_pack _) in Hthere.
    vm_compute in Hthere. destruct Hthere. }
  assert (sample_tool (install_python_cmd "/srv/env" "3.13") (fs bare_world)
          = Some sample_fs) as Htool by reflexivity.
  assert (glob false "env/cpython-3.13.*" installed_world
          = ["env/cpython-3.13.1-linux"]) as Hglob
    by (vm_compute; reflexivity).
  split_and!; [assumption..| |];
    pose proof (build_locates_install_root sample_tool id ["requests"] "env"
                  "3.13" false bare_world sample_fs Hforce Htool) as Hthm;
    cbv zeta in Hthm;
    change (path_str true (key (cwd bare_world) "env")) with "/srv/env"
      in Hthm;
    change (os_path_join "env" ("cpython-" +:+ "3.13" +:+ ".*"))
      with "env/cpython-3.13.*" in Hthm;
    change (with_fs sample_fs
              (emit (EvRun (install_python_cmd "/srv/env" "3.13")) bare_world))
      with installed_world in Hthm;
    rewrite Hglob in Hthm; apply Hthm.
Defined.

Lemma leftover_paths_only_warn_witness :
  ∃ w2,
    locate_install_root sample_tool "env" "3.13" false bare_world
      = (Ok ("/srv/env", "env/cpython-3.13.1-linux"),
         (locate_install_root sample_tool "env" "3.13" false bare_world).2) ∧
    install_packages sample_tool id ["requests"] "/srv/env"
      "env/cpython-3.13.1-linux"
      (locate_install_root sample_tool "env" "3.13" false bare_world).2
      = (Ok tt, w2) ∧
    ∃ ws n,
      search_replace_in_files ["env/cpython-3.13.1-linux" +:+ "/**/*"]
        (encode "/srv/env") None ws = (Ok n, ws) ∧
      build_python_env sample_tool id ["requests"] "env" "3.13" false
        bare_world
      = (Ok tt,
         emit (EvSuccess
                 ("Created standalone Python environment for packages "
                  +:+ repr_list ["requests"] +:+ " at: " +:+ id "env"))
           (emit (verdict "/srv/env" n) ws)).
Proof.
  pose (w1 := (locate_install_root sample_tool "env" "3.13" false
                 bare_world).2).
  pose (w2 := (install_packages sample_tool id ["requests"] "/srv/env"
                 "env/cpython-3.13.1-linux" w1).2).
  assert (locate_install_root sample_tool "env" "3.13" false bare_world
          = (Ok ("/srv/env", "env/cpython-3.13.1-linux"), w1))
    as Hlocate by run_eq.
  assert (install_packages sample_tool id ["requests"] "/srv/env"
            "env/cpython-3.13.1-linux" w1 = (Ok tt, w2))
    as Hinstall by run_eq.
  destruct (leftover_paths_only_warn sample_tool id ["requests"] "env" "3.13"
              false bare_world "/srv/env" "env/cpython-3.13.1-linux"
              w1 w2 Hlocate Hinstall)
    as (w0 & n0 & wp & ws & n & msg & _ & _ & _ & _ & _ & Hscan & Hbuild & _).
  exists w2. split_and!; [assumption..|].
  exists ws, n. split; assumption.
Defined.

(** The whole build of the sample: what is run and what is reported. *)
Example sample_build :
  ∃ w',
    build_python_env sample_tool id ["requests"] "env" "3.13" false bare_world
      = (Ok tt, w') ∧
    trace w'
      = [EvRun ["uv"; "python"; "install"; "--managed-python";
                "--install-dir"; "/srv/env"; "3.13"];
         EvRun ["uv"; "pip"; "install"; "requests"; "--python";
                "env/cpython-3.13.1-linux"; "--break-system-packages"];
         EvInfo "Removed: /srv/env/cpython-3.13.1-linux/lib/__pycache__";
         EvInfo "Removed: /srv/env/cpython-3.13.1-linux/lib/pkg/__pycache__";
         EvInfo "Found macos dylib, will update its id to remove any absolute paths: env/cpython-3.13.1-linux/lib/libz.dylib";
         EvRun ["install_name_tool"; "-id";
                "@executable_path/../lib/libz.dylib";
                "env/cpython-3.13.1-linux/lib/libz.dylib"];
         EvInfo EmptyString;
         EvInfo "Replacing all absolute paths in: ['env/cpython-3.13.1-linux/bin/*', 'env/cpython-3.13.1-linux/lib/**/*.py']: `/srv/env` -> `env`";
         EvInfo EmptyString;
         EvInfo "Sanity checking if any absolute paths remain...";
         EvWarn "Found 2 matches of `/srv/env` in binary files (see above)";
         EvSuccess "Created standalone Python environment for packages ['requests'] at: env"].
Proof.
  exists (snd (build_python_env sample_tool id ["requests"] "env" "3.13" false
            bare_world)).
  split; [run_eq|]. vm_compute. reflexivity.
Qed.

(** The patcher on the sample tree: one library, one command. *)
Example sample_dylib_ids :
  ∃ w',
    update_macos_dylib_ids sample_tool "env/cpython-3.13.1-linux" sample_world
      = (Ok tt, w') ∧
    glob true "env/cpython-3.13.1-linux/lib/**/*.dylib" sample_world
      = ["env/cpython-3.13.1-linux/lib/libz.dylib"] ∧
    commands (trace w')
      = [["install_name_tool"; "-id"; "@executable_path/../lib/libz.dylib";
          "env/cpython-3.13.1-linux/lib/libz.dylib"]].
Proof.
  exists (update_macos_dylib_ids sample_tool "env/cpython-3.13.1-linux"
            sample_world).2.
  split_and!; [run_eq|vm_compute; reflexivity..].
Qed.


Lemma pycache_dirs_removed_witness :
  wf_fs (fs sample_world) ∧
  ∃ w',
    clean_pycache_dirs id "/srv/env" sample_world = (Ok tt, w') ∧
    (∀ k, in_pycache (fs sample_world) (key (cwd sample_world) "/srv/env") k →
          fs w' !! k = None) ∧
    (∀ k, ¬ in_pycache (fs sample_world) (key (cwd sample_world) "/srv/env") k →
          fs w' !! k = fs sample_world !! k) ∧
    (∀ d, fs w' !! (key (cwd sample_world) "/srv/env" ++ d ++ ["__pycache__"])
          ≠ Some Dir).
Proof.
  assert (wf_fs (fs sample_world)) as Hwf.
  { apply wf_fs_check_sound. vm_compute. reflexivity. }
  split; [assumption|].
  exact (pycache_dirs_removed id "/srv/env" sample_world Hwf).
Defined.

(** Cache cleanup of the sample: both cache directories go with their
    content, the thirteen other entries stay. *)
Example sample_cleanup :
  ∃ w',
    clean_pycache_dirs id "/srv/env" sample_world = (Ok tt, w') ∧
    fs w' !! (sample_root ++ ["lib"; "__pycache__"]) = None ∧
    fs w' !! (sample_root ++ ["lib"; "__pycache__"; "site.pyc"]) = None ∧
    fs w' !! (sample_root ++ ["lib"; "pkg"; "__pycache__"; "mod.pyc"]) = None ∧
    fs w' !! (sample_root ++ ["lib"; "pkg"; "mod.py"])
      = Some (File (encode "x = 1") 0) ∧
    size (fs sample_world) = 17 ∧ size (fs w') = 13.
Proof.
  exists (clean_pycache_dirs id "/srv/env" sample_world).2.
  split_and!; [run_eq|vm_compute; reflexivity..].
Qed.

Lemma relocation_leaves_other_files_witness :
  (readme_key ∉ file_set ["env/cpython-3.13.1-linux" +:+ "/bin/*";
                          "env/cpython-3.13.1-linux" +:+ "/lib/**/*.py"]
                  sample_world) ∧
  ∃ n msg w',
    replace_absolute_paths "env/cpython-3.13.1-linux" "/srv/env" "env"
      sample_world = (Ok tt, w') ∧
    fs w' !! readme_key = fs sample_world !! readme_key ∧
    trace w' = trace sample_world ++
      [EvInfo EmptyString; EvInfo msg; EvInfo EmptyString;
       EvInfo "Sanity checking if any absolute paths remain...";
       verdict "/srv/env" n] ∧
    n = sum_list (file_count (encode "/srv/env") (fs w')
                    <$> file_set ["env/cpython-3.13.1-linux" +:+ "/**/*"] w') ∧
    (readme_key ∈ file_set ["env/cpython-3.13.1-linux" +:+ "/**/*"]
                    sample_world →
     file_count (encode "/srv/env") (fs sample_world) readme_key ≤ n).
Proof.
  assert (readme_key ∉ file_set ["env/cpython-3.13.1-linux" +:+ "/bin/*";
            "env/cpython-3.13.1-linux" +:+ "/lib/**/*.py"] sample_world)
    as Hout.
  { apply (bool_decide_unpack _). vm_compute. exact I. }
  split; [assumption|].
  exact (relocation_leaves_other_files "env/cpython-3.13.1-linux" "/srv/env"
           "env" sample_world readme_key Hout).
Defined.

(** Relocation of the sample: the text file under [lib/] keeps the
    absolute path, the Python file loses it, and the scan reports the two
    occurrences that are left. *)
Example sample_relocation :
  ∃ w',
    replace_absolute_paths "env/cpython-3.13.1-linux" "/srv/env" "env"
      sample_world = (Ok tt, w') ∧
    fs w' !! readme_key = Some (File (encode "installed into /srv/env") 0) ∧
    fs w' !! (sample_root ++ ["lib"; "conf.py"])
      = Some (File (encode "prefix = 'env'") 2) ∧
    last (trace w')
      = Some (EvWarn "Found 2 matches of `/srv/env` in binary files (see above)").
Proof.
  exists (replace_absolute_paths "env/cpython-3.13.1-linux" "/srv/env" "env"
            sample_world).2.
  split_and!; [run_eq|vm_compute; reflexivity..].
Qed.

(** * The further statements on the sample trees *)

Lemma clean_of_sound old m :
  clean_of old m = true →
  ∀ k content t, m !! k = Some (File content t) → ¬ occurs old content.
Proof.
  unfold clean_of. intros Hcheck%bool_decide_eq_true k content t Hk.
  apply count_zero_occurs. specialize (Hcheck k _ Hk). simpl in Hcheck.
  by apply Nat.eqb_eq.
Qed.

Lemma cache_free_sound m top :
  cache_free m = true →
  ∀ d : path, m !! (top ++ d ++ ["__pycache__"]) ≠ Some Dir.
Proof.
  unfold cache_free. intros Hcheck%bool_decide_eq_true d Hk.
  apply (Hcheck _ _ Hk). by rewrite (assoc_L (++)), last_snoc.
Qed.

(** The package installation fails: its command is the last event. *)
Lemma build_stops_at_failed_command_witness :
  (build_python_env failing_pip_tool id ["requests"] "env" "3.13" false
     bare_world).1
  = Raise (CalledProcessError
             (pip_install_cmd ["requests"] "env/cpython-3.13.1-linux")) ∧
  last (trace (build_python_env failing_pip_tool id ["requests"] "env" "3.13"
                 false bare_world).2)
  = Some (EvRun (pip_install_cmd ["requests"] "env/cpython-3.13.1-linux")).
Proof.
  assert ((build_python_env failing_pip_tool id ["requests"] "env" "3.13"
             false bare_world).1
          = Raise (CalledProcessError
                     (pip_install_cmd ["requests"] "env/cpython-3.13.1-linux")))
    as Hfail by (vm_compute; reflexivity).
  split; [assumption|].
  exact (build_stops_at_failed_command failing_pip_tool id ["requests"] "env"
           "3.13" false bare_world
           (pip_install_cmd ["requests"] "env/cpython-3.13.1-linux") Hfail).
Defined.

(** The commands of the sample build on macOS. *)
Lemma build_commands_witness :
  (build_python_env sample_tool id ["requests"] "env" "3.13" false
     bare_world).1 = Ok tt ∧
  ∃ m1 first rest m2 rels,
    let target_absolute := path_str true (key (cwd bare_world) "env") in
    let install_cmd := install_python_cmd target_absolute "3.13" in
    let w1 := with_fs m1 (emit (EvRun install_cmd) bare_world) in
    let install_root := Path first in
    let pip_cmd := pip_install_cmd ["requests"] install_root in
    let wc := (clean_pycache_dirs id target_absolute
                 (with_fs m2 (emit (EvRun pip_cmd) w1))).2 in
    let dylib_paths :=
      if bool_decide (platform bare_world = "darwin")
      then glob true (install_root +:+ "/lib/**/*.dylib") wc else [] in
    sample_tool install_cmd (fs bare_world) = Some m1 ∧
    glob false (os_path_join "env" ("cpython-" +:+ "3.13" +:+ ".*")) w1
      = first :: rest ∧
    sample_tool pip_cmd m1 = Some m2 ∧
    Forall2 (λ p rel, relative_to p install_root = Some rel)
      dylib_paths rels ∧
    commands (trace (build_python_env sample_tool id ["requests"] "env" "3.13"
                       false bare_world).2)
    = commands (trace bare_world) ++
      install_cmd :: pip_cmd :: zip_with install_name_cmd dylib_paths rels.
Proof.
  assert ((build_python_env sample_tool id ["requests"] "env" "3.13" false
             bare_world).1 = Ok tt) as Hok by (vm_compute; reflexivity).
  split; [assumption|].
  exact (build_commands sample_tool id ["requests"] "env" "3.13" false
           bare_world Hok).
Defined.

(** An interpreter tree without [bin/pip] stops the build before the
    package installation. *)
Lemma build_needs_pip_witness :
  ¬ (is_Some (fs bare_world !! key (cwd bare_world) "env") ∧ false = false) ∧
  no_pip_tool (install_python_cmd "/srv/env" "3.13") (fs bare_world)
    = Some no_pip_fs ∧
  glob false "env/cpython-3.13.*" no_pip_world
    = ["env/cpython-3.13.1-linux"] ∧
  no_pip_fs !! (sample_root ++ ["bin"; "pip"]) = None ∧
  build_python_env no_pip_tool id ["requests"] "env" "3.13" false bare_world
    = (Raise (FileNotFoundError
                "Failed to find pip at: env/cpython-3.13.1-linux/bin/pip"),
       no_pip_world) ∧
  commands (trace no_pip_world)
    = commands (trace bare_world) ++ [install_python_cmd "/srv/env" "3.13"].
Proof.
  assert (¬ (is_Some (fs bare_world !! key (cwd bare_world) "env")
             ∧ false = false)) as Hcheck.
  { intros [Hthere _]. apply (bool_decide_pack _) in Hthere.
    vm_compute in Hthere. destruct Hthere. }
  assert (no_pip_tool (install_python_cmd "/srv/env" "3.13") (fs bare_world)
          = Some no_pip_fs) as Htool by reflexivity.
  assert (glob false "env/cpython-3.13.*" no_pip_world
          = ["env/cpython-3.13.1-linux"]) as Hglob
    by (vm_compute; reflexivity).
  assert (no_pip_fs !! (sample_root ++ ["bin"; "pip"]) = None) as Hpip
    by (vm_compute; reflexivity).
  do 4 (split; [assumption|]).
  exact (build_needs_pip no_pip_tool id ["requests"] "env" "3.13" false
           bare_world no_pip_fs "env/cpython-3.13.1-linux" [] Hcheck Htool
           Hglob Hpip).
Defined.

(** A tree without cache directories is left as it is. *)
Lemma cleanup_without_cache_witness :
  (∀ d, fs no_pip_world !! (key (cwd no_pip_world) "env" ++ d ++ ["__pycache__"])
        ≠ Some Dir) ∧
  clean_pycache_dirs id "env" no_pip_world = (Ok tt, no_pip_world).
Proof.
  assert (∀ d, fs no_pip_world
                 !! (key (cwd no_pip_world) "env" ++ d ++ ["__pycache__"])
               ≠ Some Dir) as Hnone.
  { apply cache_free_sound. vm_compute. reflexivity. }
  split; [assumption|].
  exact (cleanup_without_cache id "env" no_pip_world Hnone).
Defined.

(** Cleaning the sample tree twice. *)
Lemma cleanup_idempotent_witness :
  wf_fs (fs sample_world) ∧
  ∃ w1,
    clean_pycache_dirs id "/srv/env" sample_world = (Ok tt, w1) ∧
    clean_pycache_dirs id "/srv/env" w1 = (Ok tt, w1).
Proof.
  assert (wf_fs (fs sample_world)) as Hwf.
  { apply wf_fs_check_sound. vm_compute. reflexivity. }
  split; [assumption|].
  exact (cleanup_idempotent id "/srv/env" sample_world Hwf).
Defined.

(** Relocating the sample tree from a path no file mentions. *)
Lemma relocation_of_clean_tree_witness :
  (∀ k content t, fs sample_world !! k = Some (File content t) →
                  ¬ occurs (encode "/opt/py") content) ∧
  ∃ w',
    replace_absolute_paths "env/cpython-3.13.1-linux" "/opt/py" "env"
      sample_world = (Ok tt, w') ∧
    fs w' = fs sample_world ∧ clock w' = clock sample_world ∧
    last (trace w')
    = Some (EvInfo "Great! No absolute paths found in the installed files.").
Proof.
  assert (∀ k content t, fs sample_world !! k = Some (File content t) →
                         ¬ occurs (encode "/opt/py") content) as Hclean.
  { apply clean_of_sound. vm_compute. reflexivity. }
  split; [assumption|].
  exact (relocation_of_clean_tree "env/cpython-3.13.1-linux" "/opt/py" "env"
           sample_world Hclean).
Defined.

(** The text file under [lib/] of the sample keeps the old path and
    brings the warning. *)
Lemma relocation_warns_about_leftover_witness :
  readme_key ∈ file_set ["env/cpython-3.13.1-linux" +:+ "/**/*"] sample_world ∧
  (readme_key ∉ file_set ["env/cpython-3.13.1-linux" +:+ "/bin/*";
                          "env/cpython-3.13.1-linux" +:+ "/lib/**/*.py"]
                  sample_world) ∧
  fs sample_world !! readme_key
    = Some (File (encode "installed into /srv/env") 0) ∧
  occurs (encode "/srv/env") (encode "installed into /srv/env") ∧
  ∃ w' text,
    replace_absolute_paths "env/cpython-3.13.1-linux" "/srv/env" "env"
      sample_world = (Ok tt, w') ∧
    fs w' !! readme_key = Some (File (encode "installed into /srv/env") 0) ∧
    last (trace w') = Some (EvWarn text).
Proof.
  assert (readme_key ∈ file_set ["env/cpython-3.13.1-linux" +:+ "/**/*"]
                         sample_world) as Hall.
  { apply (bool_decide_unpack _). vm_compute. exact I. }
  assert (readme_key ∉ file_set ["env/cpython-3.13.1-linux" +:+ "/bin/*";
            "env/cpython-3.13.1-linux" +:+ "/lib/**/*.py"] sample_world)
    as Hout.
  { apply (bool_decide_unpack _). vm_compute. exact I. }
  assert (fs sample_world !! readme_key
          = Some (File (encode "installed into /srv/env") 0)) as Hfile
    by (vm_compute; reflexivity).
  assert (occurs (encode "/srv/env") (encode "installed into /srv/env"))
    as Hocc.
  { by exists (encode "installed into "), []. }
  split_and!; [assumption..|].
  exact (relocation_warns_about_leftover "env/cpython-3.13.1-linux" "/srv/env"
           "env" sample_world readme_key (encode "installed into /srv/env") 0
           Hall Hout Hfile Hocc).
Defined.



(** An installer that leaves no interpreter tree stops the build. *)
Lemma build_needs_install_root_witness :
  ¬ (is_Some (fs bare_world !! key (cwd bare_world) "env") ∧ false = false) ∧
  idle_tool (install_python_cmd "/srv/env" "3.13") (fs bare_world)
    = Some (fs bare_world) ∧
  glob false "env/cpython-3.13.*"
    (with_fs (fs bare_world)
       (emit (EvRun (install_python_cmd "/srv/env" "3.13")) bare_world)) = [] ∧
  build_python_env idle_tool id ["requests"] "env" "3.13" false bare_world
    = (Raise (FileNotFoundError
                "Failed to find venv root at: env/cpython-3.13.*"),
       with_fs (fs bare_world)
         (emit (EvRun (install_python_cmd "/srv/env" "3.13")) bare_world)) ∧
  commands (trace (with_fs (fs bare_world)
                     (emit (EvRun (install_python_cmd "/srv/env" "3.13"))
                        bare_world)))
    = commands (trace bare_world) ++ [install_python_cmd "/srv/env" "3.13"].
Proof.
  assert (¬ (is_Some (fs bare_world !! key (cwd bare_world) "env")
             ∧ false = false)) as Hcheck.
  { intros [Hthere _]. apply (bool_decide_pack _) in Hthere.
    vm_compute in Hthere. destruct Hthere. }
  assert (idle_tool (install_python_cmd "/srv/env" "3.13") (fs bare_world)
          = Some (fs bare_world)) as Htool by reflexivity.
  assert (glob false "env/cpython-3.13.*"
            (with_fs (fs bare_world)
               (emit (EvRun (install_python_cmd "/srv/env" "3.13"))
                  bare_world)) = []) as Hglob
    by (vm_compute; reflexivity).
  do 3 (split; [assumption|]).
  exact (build_needs_install_root idle_tool id ["requests"] "env" "3.13" false
           bare_world (fs bare_world) Hcheck Htool Hglob).
Defined.
